(** * EmptyEpsilon: the 3D viewport ([src/screenComponents/viewport3d.cpp])

    A shallow embedding of [GuiViewport3D::onDraw] and
    [GuiViewport3D::worldToScreen].

    Number model.  The C++ code computes in [float]; here a [float] is an
    exact real number of the Standard Library, so [cos], [sin], [tan] and
    [sqrt] are the mathematical functions and no rounding is modelled.
    Comparisons of the code ([<], [>], [==], [!=]) become the decision
    procedures of [R].  A division by zero gives an infinity or a NaN in
    [float] and an unspecified real here: no property below rests on the value
    of such a quotient.

    The calls a frame makes to OpenGL, to the render target and to the other
    collaborators are recorded, in order, as a list of events; what the frame
    changes (the matrices of the widget, the emitters of the world, the cache
    of cubemaps, the dust and its buffer, the random number generator) is
    passed from frame to frame as a machine state.  *)

From Stdlib Require Import Reals Lra Lia List String ZArith Bool DecimalString.
Import ListNotations.

Open Scope R_scope.

(** ** Comparisons on [float] as booleans *)

Definition Rltb (a b : R) : bool := if Rlt_dec a b then true else false.
Definition Rgtb (a b : R) : bool := Rltb b a.
Definition Rleb (a b : R) : bool := if Rle_dec a b then true else false.
Definition Reqb (a b : R) : bool := if Req_dec_T a b then true else false.

(** ** GLM: vectors, matrices and the transforms the viewport calls

    The definitions follow GLM's own ([glm/detail/func_geometric.inl],
    [glm/ext/matrix_transform.inl], [glm/ext/matrix_clip_space.inl]);
    a [mat4] is column-major, [col0 .. col3]. *)

Module glm.

Record vec2 := mkvec2 { x2 : R; y2 : R }.
Record vec3 := mkvec3 { x3 : R; y3 : R; z3 : R }.
Record vec4 := mkvec4 { x4 : R; y4 : R; z4 : R; w4 : R }.
Record mat4 := mkmat4 { col0 : vec4; col1 : vec4; col2 : vec4; col3 : vec4 }.

Definition add2 (a b : vec2) : vec2 := mkvec2 (x2 a + x2 b) (y2 a + y2 b).
Definition sub2 (a b : vec2) : vec2 := mkvec2 (x2 a - x2 b) (y2 a - y2 b).
Definition scale2 (a : vec2) (k : R) : vec2 := mkvec2 (x2 a * k) (y2 a * k).
Definition div2 (a : vec2) (k : R) : vec2 := mkvec2 (x2 a / k) (y2 a / k).

Definition add3 (a b : vec3) : vec3 :=
  mkvec3 (x3 a + x3 b) (y3 a + y3 b) (z3 a + z3 b).
Definition sub3 (a b : vec3) : vec3 :=
  mkvec3 (x3 a - x3 b) (y3 a - y3 b) (z3 a - z3 b).
Definition neg3 (a : vec3) : vec3 := mkvec3 (- x3 a) (- y3 a) (- z3 a).
Definition scale3 (k : R) (a : vec3) : vec3 :=
  mkvec3 (k * x3 a) (k * y3 a) (k * z3 a).
Definition dot3 (a b : vec3) : R := x3 a * x3 b + y3 a * y3 b + z3 a * z3 b.

(** [glm::length2(v)] is [dot(v, v)]. *)
Definition length2 (v : vec3) : R := dot3 v v.

(** [glm::normalize(v)] is [v * inversesqrt(dot(v, v))]. *)
Definition normalize (v : vec3) : vec3 := scale3 (/ sqrt (dot3 v v)) v.

Definition add4 (a b : vec4) : vec4 :=
  mkvec4 (x4 a + x4 b) (y4 a + y4 b) (z4 a + z4 b) (w4 a + w4 b).
Definition scale4 (a : vec4) (k : R) : vec4 :=
  mkvec4 (x4 a * k) (y4 a * k) (z4 a * k) (w4 a * k).
Definition div4 (a : vec4) (k : R) : vec4 :=
  mkvec4 (x4 a / k) (y4 a / k) (z4 a / k) (w4 a / k).

(** [glm::vec4(v, w)] *)
Definition vec4_of (v : vec3) (w : R) : vec4 := mkvec4 (x3 v) (y3 v) (z3 v) w.

(** [m * v]: the combination of the columns of [m] by the entries of [v]. *)
Definition mulmv (m : mat4) (v : vec4) : vec4 :=
  add4 (add4 (add4 (scale4 (col0 m) (x4 v)) (scale4 (col1 m) (y4 v)))
             (scale4 (col2 m) (z4 v)))
       (scale4 (col3 m) (w4 v)).

(** [glm::identity<glm::mat4>()] *)
Definition identity : mat4 :=
  mkmat4 (mkvec4 1 0 0 0) (mkvec4 0 1 0 0) (mkvec4 0 0 1 0) (mkvec4 0 0 0 1).

(** [glm::radians(degrees)] *)
Definition radians (deg : R) : R := deg * (PI / 180).

(** [glm::rotate(m, angle, v)] *)
Definition rotate (m : mat4) (angle : R) (v : vec3) : mat4 :=
  let c := cos angle in
  let s := sin angle in
  let axis := normalize v in
  let temp := scale3 (1 - c) axis in
  let r00 := c + x3 temp * x3 axis in
  let r01 := x3 temp * y3 axis + s * z3 axis in
  let r02 := x3 temp * z3 axis - s * y3 axis in
  let r10 := y3 temp * x3 axis - s * z3 axis in
  let r11 := c + y3 temp * y3 axis in
  let r12 := y3 temp * z3 axis + s * x3 axis in
  let r20 := z3 temp * x3 axis + s * y3 axis in
  let r21 := z3 temp * y3 axis - s * x3 axis in
  let r22 := c + z3 temp * z3 axis in
  mkmat4
    (add4 (add4 (scale4 (col0 m) r00) (scale4 (col1 m) r01)) (scale4 (col2 m) r02))
    (add4 (add4 (scale4 (col0 m) r10) (scale4 (col1 m) r11)) (scale4 (col2 m) r12))
    (add4 (add4 (scale4 (col0 m) r20) (scale4 (col1 m) r21)) (scale4 (col2 m) r22))
    (col3 m).

(** [glm::scale(m, v)] *)
Definition scale (m : mat4) (v : vec3) : mat4 :=
  mkmat4 (scale4 (col0 m) (x3 v)) (scale4 (col1 m) (y3 v))
         (scale4 (col2 m) (z3 v)) (col3 m).

(** [glm::translate(m, v)] *)
Definition translate (m : mat4) (v : vec3) : mat4 :=
  mkmat4 (col0 m) (col1 m) (col2 m)
         (add4 (add4 (add4 (scale4 (col0 m) (x3 v)) (scale4 (col1 m) (y3 v)))
                     (scale4 (col2 m) (z3 v)))
               (col3 m)).

(** [glm::perspective(fovy, aspect, zNear, zFar)], right-handed, depth
    range [-1, 1] (GLM's default). *)
Definition perspective (fovy aspect zNear zFar : R) : mat4 :=
  let tanHalfFovy := tan (fovy / 2) in
  mkmat4
    (mkvec4 (1 / (aspect * tanHalfFovy)) 0 0 0)
    (mkvec4 0 (1 / tanHalfFovy) 0 0)
    (mkvec4 0 0 (- (zFar + zNear) / (zFar - zNear)) (- 1))
    (mkvec4 0 0 (- (2 * zFar * zNear) / (zFar - zNear)) 0).

(** [std::clamp(v, lo, hi)] *)
Definition clamp (v lo hi : R) : R :=
  if Rltb v lo then lo else if Rltb hi v then hi else v.

End glm.
Import glm.

(** ** The widget *)

(** [sp::Rect]: position and size, in virtual pixels. *)
Record Rect := mkRect { position : vec2; size : vec2 }.

(** The members of [GuiViewport3D] that the frame reads or writes. *)
Record GuiViewport3D := mkGuiViewport3D {
  rect : Rect;
  camera_position : vec3;
  camera_yaw : R;
  camera_pitch : R;
  show_callsigns : bool;
  show_headings : bool;
  show_spacedust : bool;
  projection_matrix : mat4;
  view_matrix : mat4
}.

Definition set_projection_matrix (m : mat4) (g : GuiViewport3D) : GuiViewport3D :=
  mkGuiViewport3D (rect g) (camera_position g) (camera_yaw g) (camera_pitch g)
    (show_callsigns g) (show_headings g) (show_spacedust g) m (view_matrix g).

Definition set_view_matrix (m : mat4) (g : GuiViewport3D) : GuiViewport3D :=
  mkGuiViewport3D (rect g) (camera_position g) (camera_yaw g) (camera_pitch g)
    (show_callsigns g) (show_headings g) (show_spacedust g) (projection_matrix g) m.

(** Lines 173-182 of [onDraw]: the projection and the view matrix of the
    frame, from the camera and the rectangle. *)
Definition camera_matrices (camera_fov : R) (g : GuiViewport3D) : GuiViewport3D :=
  let g := set_projection_matrix
             (perspective (radians camera_fov)
                (x2 (size (rect g)) / y2 (size (rect g))) 1 25000) g in
  let g := set_view_matrix (rotate identity (radians 90) (mkvec3 1 0 0)) g in
  let g := set_view_matrix (scale (view_matrix g) (mkvec3 1 1 (- 1))) g in
  let g := set_view_matrix
             (rotate (view_matrix g) (radians (- camera_pitch g)) (mkvec3 1 0 0)) g in
  let g := set_view_matrix
             (rotate (view_matrix g) (radians (- (camera_yaw g + 90))) (mkvec3 0 0 1)) g in
  set_view_matrix (translate (view_matrix g) (neg3 (camera_position g))) g.

(** [sp::RenderTarget], as far as the viewport uses it: the physical size of
    the window.  The text it draws is part of the frame's effects below. *)
Record RenderTarget := mkRenderTarget { physical_size : vec2 }.

(** [GuiViewport3D::worldToScreen].  The method is not [const] and takes the
    render target by reference, so the embedding hands both back. *)
Definition worldToScreen (renderer : RenderTarget) (world : vec3)
    (self : GuiViewport3D) : vec3 * (GuiViewport3D * RenderTarget) :=
  let view_pos := mulmv (view_matrix self) (vec4_of world 1) in
  let pos := mulmv (projection_matrix self) view_pos in
  let pos := div4 pos (w4 pos) in
  let ret_x := x4 pos * (5 / 10) + 5 / 10 in
  let ret_y := y4 pos * (5 / 10) + 5 / 10 in
  let ret_z := - z4 view_pos in
  let ret_x := x2 (position (rect self)) + x2 (size (rect self)) * ret_x in
  let ret_y := y2 (position (rect self)) + y2 (size (rect self)) * (1 - ret_y) in
  (mkvec3 ret_x ret_y ret_z, (self, renderer)).

(** The projected point alone. *)
Definition project (renderer : RenderTarget) (self : GuiViewport3D) (world : vec3) : vec3 :=
  fst (worldToScreen renderer world self).

(** The direction the camera looks in, in world coordinates. *)
Definition camera_forward (g : GuiViewport3D) : vec3 :=
  let yaw := radians (camera_yaw g) in
  let pitch := radians (camera_pitch g) in
  mkvec3 (cos pitch * cos yaw) (cos pitch * sin yaw) (- sin pitch).

(** *** The projection, in the specification's words

    By the view matrix, then by the projection matrix; divided by [w]; the
    X and Y of the result, in [-1, 1], mapped to [0, 1] with the vertical axis
    flipped; scaled into the rectangle of the viewport; Z is the depth in
    camera space. *)
Definition spec_worldToScreen (self : GuiViewport3D) (world : vec3) : vec3 :=
  let view_pos := mulmv (view_matrix self) (vec4_of world 1) in
  let clip := mulmv (projection_matrix self) view_pos in
  let ndc_x := x4 clip / w4 clip in
  let ndc_y := y4 clip / w4 clip in
  let unit_x := (ndc_x + 1) / 2 in
  let unit_y := (1 - ndc_y) / 2 in
  mkvec3 (x2 (position (rect self)) + x2 (size (rect self)) * unit_x)
         (y2 (position (rect self)) + y2 (size (rect self)) * unit_y)
         (- z4 view_pos).

(** The Z after the division by [w], which [worldToScreen] does not return
    (the line of the source that computed it is commented out). *)
Definition ndc_z (self : GuiViewport3D) (world : vec3) : R :=
  let view_pos := mulmv (view_matrix self) (vec4_of world 1) in
  let clip := mulmv (projection_matrix self) view_pos in
  z4 clip / w4 clip.

(** *** The camera of the end-to-end example: at the origin, yaw 0, pitch 0,
    a viewport of 800 by 600 at [(px, py)], field of view 60 degrees. *)
Definition example_camera (px py : R) : GuiViewport3D :=
  mkGuiViewport3D (mkRect (mkvec2 px py) (mkvec2 800 600))
    (mkvec3 0 0 0) 0 0 false false false identity identity.

(** ** The entities of the game world

    The entity-component system is a collaborator of the viewport: an entity
    is a handle and a set of optional components, the world is the list of the
    entities in the order a query yields them. *)

(** [sp::Transform] *)
Record Transform := mkTransform { getPosition : vec2; getRotation : R }.

(** [sp::Physics], as far as the viewport reads it *)
Record Physics := mkPhysics { getSize : vec2; getVelocity : vec2 }.

(** [Zone] ([components/zone.h]) *)
Record Zone := mkZone {
  outline : list vec2;
  skybox : string;
  skybox_fade_distance : R
}.

(** One emitter point of an [EngineEmitter] ([components/rendering.h]) *)
Record Emitter := mkEmitter {
  emitter_position : vec3;
  emitter_color : vec3;
  emitter_scale : R
}.

Record EngineEmitter := mkEngineEmitter {
  last_engine_particle_time : R;
  emitters : list Emitter
}.

(** [ImpulseEngine] ([components/impulse.h]): [actual] is the throttle in
    effect. *)
Record ImpulseEngine := mkImpulseEngine { actual : R }.

Record CallSign := mkCallSign { callsign : string }.

(** [Target] ([components/target.h]): the handle of the targeted entity. *)
Record Target := mkTarget { target_entity : option nat }.

Record Entity := mkEntity {
  handle : nat;
  transform : option Transform;
  physics : option Physics;
  zone : option Zone;
  engine_emitter : option EngineEmitter;
  impulse_engine : option ImpulseEngine;
  call_sign : option CallSign;
  target : option Target
}.

Definition World := list Entity.

(** An entity handle resolves to the first entity of the world that carries
    it; a handle that resolves to nothing is an invalid entity. *)
Definition find_entity (w : World) (h : option nat) : option Entity :=
  match h with
  | Some n => find (fun e => Nat.eqb (handle e) n) w
  | None => None
  end.

(** [entity.getComponent<C>()] on a handle *)
Definition getComponent {C : Type} (field : Entity -> option C)
    (w : World) (h : option nat) : option C :=
  match find_entity w h with
  | Some e => field e
  | None => None
  end.

(** An entity handle used as a condition: does the entity exist? *)
Definition is_valid (w : World) (h : option nat) : bool :=
  match find_entity w h with
  | Some _ => true
  | None => false
  end.

(** [entity == my_spaceship] *)
Definition is_entity (e : Entity) (h : option nat) : bool :=
  match h with
  | Some n => Nat.eqb (handle e) n
  | None => false
  end.

(** ** The random number generator

    Modelled from the spec: [random(fmin, fmax)] of [random.h], which is not
    among the sources, draws uniformly between [fmin] and [fmax].  The
    generator is the sequence of the fractions it will draw, each between 0
    and 1, and the position it has reached. *)
Record Rng := mkRng { draws : nat -> R; cursor : nat }.

Definition random (fmin fmax : R) (g : Rng) : R * Rng :=
  (fmin + draws g (cursor g) * (fmax - fmin), mkRng (draws g) (S (cursor g))).

(** The fractions of a generator are fractions. *)
Definition fair (g : Rng) : Prop := forall n, 0 <= draws g n <= 1.

(** ** What a frame does to the outside: the calls it makes, in order *)

Inductive Capability := GL_DEPTH_TEST | GL_CULL_FACE | GL_BLEND.

Inductive Buffer :=
  | GL_NONE
  | starbox_vertex_buffer
  | starbox_element_buffer
  | spacedust_buffer.

Inductive BufferTarget := GL_ARRAY_BUFFER | GL_ELEMENT_ARRAY_BUFFER.

(** [glm::u8vec4] *)
Record u8vec4 := mku8vec4 { red : Z; green : Z; blue : Z; alpha : Z }.

Inductive Event :=
  | RendererFinish
  | SetListenerPosition (p : vec2) (rotation : R)
  | GlActiveTexture (unit : nat)
  | GlViewport (x y width height : R)
  | GlClearDepthf (d : R)
  | GlClearDepth (d : R)
  | GlClearDepthStencil
  | GlEnable (c : Capability)
  | GlDisable (c : Capability)
  | GlCullFaceBack
  | GlFrontFaceCCW
  | GlBlendFuncAlpha
  | GlDepthMask (on : bool)
  | ShaderBind (shader : string)
  | ShaderRelease (shader : string)
  | GlUniform1f (uniform : string) (v : R)
  | GlUniform1i (uniform : string) (v : Z)
  | GlUniform2f (uniform : string) (a b : R)
  | GlUniform4f (uniform : string) (a b c d : R)
  | GlUniformMatrix4fv (uniform : string) (m : mat4)
  | CubemapLoad (name : string)
  | CubemapBind (name : string)
  | CubemapUnbind
  | TextureBind (name : string)
  | GlBindBuffer (t : BufferTarget) (b : Buffer)
  | GlVertexAttribPointer (attribute : string) (components : nat)
  | GlBufferSubData (positions : list vec3)
  | GlDrawElements (count : nat)
  | GlDrawArrays (count : nat)
  | ParticleSpawn (position end_position color end_color : vec3)
      (scale sixth life_time : R)   (* the arguments of line 273, in order *)
  | UpdateProjectionView (view : mat4)
  | Render3D (aspect fov : R)
  | ParticleRender (projection view : mat4)
  | DrawText (r : Rect) (text : string) (font_size : R) (color : u8vec4).

(** The conversion of a [float] to a colour channel ([uint8_t]): the
    fraction is dropped.  The channels the viewport computes lie between 0 and
    128. *)
Definition u8_of_float (r : R) : Z :=
  if Rleb 0 r then Int_part r else (- Int_part (- r))%Z.

(** ** The machine a frame runs on *)

(** What changes from frame to frame: the widget, the world, the cache of
    cubemaps ([skybox_textures], a static of the file), the dust particles
    ([space_dust], a static of [onDraw]), the positions held by the dust
    buffer of the GPU, and the random number generator. *)
Record Machine := mkMachine {
  self : GuiViewport3D;
  world : World;
  skybox_textures : list string;
  space_dust : list vec3;
  spacedust_positions : list vec3;
  rng : Rng
}.

(** What a frame reads and leaves alone. *)
Record Frame := mkFrame {
  renderer : RenderTarget;
  elapsed_time : R;                (* engine->getElapsedTime() *)
  main_screen_camera_fov : R;      (* the preference, [toFloat()] applied *)
  gameGlobalInfo : option string;  (* its [default_skybox], when it exists *)
  my_spaceship : option nat;
  GLAD_GL_ES_VERSION_2_0 : bool
}.

Definition maxDustDist : R := 500.
Definition minDustDist : R := 100.

Section Viewport.

(** Collaborators whose code is not among the sources: the polygon tests of
    [math/centerOfMass.h], the vector helpers and the pixel mapping of the
    render target. *)
Variable insidePolygon : list vec2 -> vec2 -> bool.
Variable distanceToEdge : list vec2 -> vec2 -> R.
Variable rotateVec2 : vec2 -> R -> vec2.
Variable vec2FromAngle : R -> vec2.
Variable virtualToPixelPosition : RenderTarget -> vec2 -> vec2.

Set Default Proof Using "Type".

(** *** The starbox *)

(** [sp::ecs::Query<Zone, sp::Transform>()] *)
Definition query_zones (w : World) : list (Entity * Zone * Transform) :=
  flat_map (fun e =>
    match zone e, transform e with
    | Some z, Some t => [(e, z, t)]
    | _, _ => []
    end) w.

Definition is_empty (s : string) : bool := String.eqb s "".

(** The loop of lines 196-208: the name of the local skybox and its factor.
    [found] is what the loop leaves when no zone breaks it. *)
Fixpoint select_local_skybox (camera : vec3)
    (zones : list (Entity * Zone * Transform)) (found : string * R) : string * R :=
  match zones with
  | [] => found
  | (_, zone, t) :: rest =>
      if is_empty (skybox zone) then select_local_skybox camera rest found
      else
        let pos := sub2 (getPosition t) (mkvec2 (x3 camera) (y3 camera)) in
        if insidePolygon (outline zone) pos then
          let local_skybox_name := ("skybox/" ++ skybox zone)%string in
          if Rleb (skybox_fade_distance zone) 0 then (local_skybox_name, 1)
          else (local_skybox_name,
                clamp (distanceToEdge (outline zone) pos / skybox_fade_distance zone) 0 1)
        else select_local_skybox camera rest found
  end.

(** The name of the global skybox, of the local one, and the factor. *)
Definition select_skybox (f : Frame) (g : GuiViewport3D) (w : World)
    : string * (string * R) :=
  let skybox_name :=
    match gameGlobalInfo f with
    | Some default_skybox => ("skybox/" ++ default_skybox)%string
    | None => "skybox/default"%string
    end in
  (skybox_name,
   select_local_skybox (camera_position g) (query_zones w) (skybox_name, 0)).

(** [skybox_textures[name]], created when it is not there yet. *)
Definition cubemap (name : string) (cache : list string) : list string * list Event :=
  if existsb (String.eqb name) cache then (cache, [])
  else (name :: cache, [CubemapLoad name]).

Definition draw_starbox (f : Frame) (g : GuiViewport3D) (w : World)
    (cache : list string) : list string * list Event :=
  let '(skybox_name, (local_skybox_name, local_skybox_factor)) := select_skybox f g w in
  let '(cache, load_global) := cubemap skybox_name cache in
  let '(cache, load_local) := cubemap local_skybox_name cache in
  (cache,
   [ShaderBind "shaders/starbox"; GlUniform1f "scale" 100]
   ++ load_global ++ load_local
   ++ [GlUniform1i "global_starbox" 0; GlActiveTexture 0; CubemapBind skybox_name;
       GlUniform1i "local_starbox" 1; GlActiveTexture 1; CubemapBind local_skybox_name;
       GlUniform1f "starbox_lerp" local_skybox_factor;
       GlUniformMatrix4fv "projection" (projection_matrix g);
       GlUniformMatrix4fv "view" (view_matrix g);
       GlBindBuffer GL_ARRAY_BUFFER starbox_vertex_buffer;
       GlBindBuffer GL_ELEMENT_ARRAY_BUFFER starbox_element_buffer;
       GlVertexAttribPointer "position" 3;
       GlDrawElements 36;
       GlBindBuffer GL_ARRAY_BUFFER GL_NONE;
       GlBindBuffer GL_ELEMENT_ARRAY_BUFFER GL_NONE;
       GlActiveTexture 1; CubemapUnbind;
       GlActiveTexture 0; CubemapUnbind]).

(** *** Engine particles *)

Definition set_last_engine_particle_time (t : R) (e : Entity) : Entity :=
  match engine_emitter e with
  | Some ee =>
      mkEntity (handle e) (transform e) (physics e) (zone e)
        (Some (mkEngineEmitter t (emitters ee)))
        (impulse_engine e) (call_sign e) (target e)
  | None => e
  end.

(** The particle of one emitter point (lines 268-273). *)
Definition spawn_engine_particle (t : Transform) (engine_scale : R) (ed : Emitter) : Event :=
  let offset := emitter_position ed in
  let pos2d := add2 (getPosition t)
                 (rotateVec2 (mkvec2 (x3 offset) (y3 offset)) (getRotation t)) in
  let color := emitter_color ed in
  let pos3d := mkvec3 (x2 pos2d) (y2 pos2d) (z3 offset) in
  let scale := emitter_scale ed * engine_scale in
  ParticleSpawn pos3d pos3d color color scale 0 5.

(** The body of the loop of lines 261-278 on one entity.  An entity that lacks
    one of the three components is not in the query. *)
Definition emit_engine_particles (elapsed : R) (e : Entity) : Entity * list Event :=
  match engine_emitter e, transform e, impulse_engine e with
  | Some ee, Some t, Some impulse =>
      if negb (Reqb (actual impulse) 0) then
        let engine_scale := Rabs (actual impulse) in
        if Rgtb (elapsed - last_engine_particle_time ee) (1 / 10) then
          (set_last_engine_particle_time elapsed e,
           map (spawn_engine_particle t engine_scale) (emitters ee))
        else (e, [])
      else (e, [])
  | _, _, _ => (e, [])
  end.

(** The loop over the world. *)
Fixpoint engine_particles (elapsed : R) (w : World) : World * list Event :=
  match w with
  | [] => ([], [])
  | e :: rest =>
      let '(e', spawned) := emit_engine_particles elapsed e in
      let '(rest', spawned_rest) := engine_particles elapsed rest in
      (e' :: rest', spawned ++ spawned_rest)
  end.

(** *** Space dust *)

(** The test of line 306 on the first end of a pair. *)
Definition outside_shell (dust_center p : vec3) : bool :=
  let delta := sub3 p dust_center in
  Rgtb (length2 delta) (maxDustDist * maxDustDist)
  || Rltb (length2 delta) (minDustDist * minDustDist).

(** The place a pair is respawned at (line 309).  C++ leaves open the order
    in which the three draws are made; here they are made first to last. *)
Definition respawn (dust_center : vec3) (g : Rng) : vec3 * Rng :=
  let '(rx, g) := random (- maxDustDist) maxDustDist g in
  let '(ry, g) := random (- maxDustDist) maxDustDist g in
  let '(rz, g) := random (- maxDustDist) maxDustDist g in
  (add3 dust_center (mkvec3 rx ry rz), g).

(** The loop of lines 302-312: [space_dust[n]] and [space_dust[n + 1]] are
    the two elements at the head of the list, [n] advances by two. *)
Fixpoint update_space_dust (dust_center : vec3) (dust : list vec3)
    (update_required : bool) (g : Rng) : list vec3 * bool * Rng :=
  match dust with
  | p0 :: p1 :: rest =>
      if outside_shell dust_center p0 then
        let '(p, g) := respawn dust_center g in
        let '(rest, update_required, g) := update_space_dust dust_center rest true g in
        (p :: p :: rest, update_required, g)
      else
        let '(rest, update_required, g) :=
          update_space_dust dust_center rest update_required g in
        (p0 :: p1 :: rest, update_required, g)
  | _ => (dust, update_required, g)
  end.

(** Line 295: where the dust gathers. *)
Definition dust_center_of (f : Frame) (g : GuiViewport3D) (w : World) : vec3 :=
  match getComponent transform w (my_spaceship f) with
  | Some t => mkvec3 (x2 (getPosition t)) (y2 (getPosition t)) 0
  | None => camera_position g
  end.

(** The dust pass (lines 290-337): the particles, the positions the GPU
    holds, the generator, and the calls made. *)
Definition draw_spacedust (f : Frame) (g : GuiViewport3D) (w : World)
    (dust buffer : list vec3) (r : Rng) : list vec3 * list vec3 * Rng * list Event :=
  let dust_vector :=
    match getComponent physics w (my_spaceship f) with
    | Some p => div2 (getVelocity p) 100
    | None => mkvec2 0 0
    end in
  let dust_center := dust_center_of f g w in
  let '(dust, update_required, r) := update_space_dust dust_center dust false r in
  (dust, (if update_required then dust else buffer), r,
   [ShaderBind "shaders/spacedust";
    GlUniformMatrix4fv "projection" (projection_matrix g);
    GlUniformMatrix4fv "view" (view_matrix g);
    GlUniform2f "velocity" (x2 dust_vector) (y2 dust_vector);
    GlBindBuffer GL_ARRAY_BUFFER spacedust_buffer]
   ++ (if update_required then [GlBufferSubData dust] else [])
   ++ [GlVertexAttribPointer "position" 3;
       GlVertexAttribPointer "sign_value" 1;
       GlDrawArrays (List.length dust);
       GlBindBuffer GL_ARRAY_BUFFER GL_NONE]).

(** *** The reticle on the target (lines 340-376) *)

Definition draw_target (f : Frame) (w : World) : list Event :=
  match getComponent target w (my_spaceship f) with
  | Some target_comp =>
      match find_entity w (target_entity target_comp) with
      | Some entity =>
          let model_matrix :=
            match transform entity with
            | Some t => translate identity
                          (mkvec3 (x2 (getPosition t)) (y2 (getPosition t)) 0)
            | None => identity
            end in
          let radius :=
            match physics entity with
            | Some p => x2 (getSize p)
            | None => 300
            end in
          [ShaderBind "billboard"; GlDisable GL_DEPTH_TEST;
           TextureBind "redicule2.png";
           GlUniformMatrix4fv "model" model_matrix;
           GlUniform4f "color" (5 / 10) (5 / 10) (5 / 10) (radius * (25 / 10));
           GlVertexAttribPointer "position" 3;
           GlVertexAttribPointer "texcoords" 2;
           GlDrawElements 6;
           ShaderRelease "billboard"]
      | None => []
      end
  | None => []
  end.

(** *** Callsigns (lines 428-445) *)

(** What is drawn for a callsign projected at [screen_position]. *)
Definition callsign_label (text : string) (screen_position : vec3) : list Event :=
  if Rltb (z3 screen_position) 0 then []
  else if Rgtb (z3 screen_position) 10000 then []
  else
    let distance_factor := 1 - z3 screen_position / 10000 in
    [DrawText (mkRect (mkvec2 (x3 screen_position) (y3 screen_position)) (mkvec2 0 0))
       text (20 * distance_factor)
       (mku8vec4 255 255 255 (u8_of_float (128 * distance_factor)))].

(** Lines 434-437: the world point a callsign is projected from. *)
Definition callsign_anchor (entity : Entity) (t : Transform) : vec3 :=
  let radius :=
    match physics entity with
    | Some p => x2 (getSize p)
    | None => 300
    end in
  mkvec3 (x2 (getPosition t)) (y2 (getPosition t)) radius.

(** The body of the loop on one entity.  An entity without callsign or
    without transform is not in the query. *)
Definition draw_callsign (f : Frame) (g : GuiViewport3D) (entity : Entity) : list Event :=
  match call_sign entity, transform entity with
  | Some cs, Some t =>
      if is_entity entity (my_spaceship f) then []
      else
        let screen_position :=
          fst (worldToScreen (renderer f) (callsign_anchor entity t) g) in
        callsign_label (callsign cs) screen_position
  | _, _ => []
  end.

Definition draw_callsigns (f : Frame) (g : GuiViewport3D) (w : World) : list Event :=
  flat_map (draw_callsign f g) w.

(** *** Headings (lines 447-461) *)

(** [string(angle)] *)
Definition string_of_angle (angle : Z) : string :=
  NilZero.string_of_int (Z.to_int angle).

Definition draw_heading (f : Frame) (g : GuiViewport3D) (t : Transform) (angle : Z)
    : list Event :=
  let world_pos := add2 (getPosition t) (scale2 (vec2FromAngle (IZR angle - 90)) 2500) in
  let screen_pos :=
    fst (worldToScreen (renderer f) (mkvec3 (x2 world_pos) (y2 world_pos) 0) g) in
  if Rgtb (z3 screen_pos) 0 then
    [DrawText (mkRect (mkvec2 (x3 screen_pos) (y3 screen_pos)) (mkvec2 0 0))
       (string_of_angle angle) 30 (mku8vec4 255 255 255 128)]
  else [].

(** The angles of [for (int angle = 0; angle < 360; angle += 30)]. *)
Definition heading_angles : list Z :=
  map (fun k => (30 * Z.of_nat k)%Z) (seq 0 12).

Definition draw_headings (f : Frame) (g : GuiViewport3D) (w : World) : list Event :=
  match find_entity w (my_spaceship f) with
  | Some ship =>
      match transform ship with
      | Some t => flat_map (draw_heading f g t) heading_angles
      | None => []
      end
  | None => []
  end.

(** *** The frame: [GuiViewport3D::onDraw] *)

(** Lines 146-171: up to the matrices. *)
Definition begin_frame (f : Frame) (g : GuiViewport3D) (w : World) : list Event :=
  let p0 := virtualToPixelPosition (renderer f) (position (rect g)) in
  let p1 := virtualToPixelPosition (renderer f) (add2 (position (rect g)) (size (rect g))) in
  [RendererFinish;
   match getComponent transform w (my_spaceship f) with
   | Some t => SetListenerPosition (getPosition t) (getRotation t)
   | None => SetListenerPosition
               (mkvec2 (x3 (camera_position g)) (y3 (camera_position g))) (camera_yaw g)
   end;
   GlActiveTexture 0;
   GlViewport (x2 p0) (y2 (physical_size (renderer f)) - y2 p1)
     (x2 p1 - x2 p0) (y2 p1 - y2 p0);
   (if GLAD_GL_ES_VERSION_2_0 f then GlClearDepthf 1 else GlClearDepth 1);
   GlClearDepthStencil;
   GlEnable GL_DEPTH_TEST; GlEnable GL_CULL_FACE; GlCullFaceBack; GlFrontFaceCCW].

(** The call that ends the frame (line 463). *)
Definition end_frame (f : Frame) : Event :=
  GlViewport 0 0 (x2 (physical_size (renderer f))) (y2 (physical_size (renderer f))).

Definition onDraw (f : Frame) (m : Machine) : Machine * list Event :=
  if Reqb (x2 (size (rect (self m)))) 0 then (m, [])
  else
    let camera_fov := main_screen_camera_fov f in
    let g := camera_matrices camera_fov (self m) in
    let '(cache, starbox) := draw_starbox f g (world m) (skybox_textures m) in
    let '(w, particles) := engine_particles (elapsed_time f) (world m) in
    let '(dust, buffer, r, spacedust) :=
      if show_spacedust g && is_valid w (my_spaceship f)
      then draw_spacedust f g w (space_dust m) (spacedust_positions m) (rng m)
      else (space_dust m, spacedust_positions m, rng m, []) in
    (mkMachine g w cache dust buffer r,
     begin_frame f (self m) (world m)
     ++ [GlDepthMask false] ++ starbox ++ [GlDepthMask true]
     ++ particles
     ++ [UpdateProjectionView (view_matrix g);
         Render3D (x2 (size (rect g)) / y2 (size (rect g))) camera_fov;
         ParticleRender (projection_matrix g) (view_matrix g)]
     ++ spacedust
     ++ draw_target f w
     ++ [GlDepthMask true; GlDisable GL_BLEND; GlEnable GL_CULL_FACE;
         GlDisable GL_CULL_FACE; GlDisable GL_DEPTH_TEST; GlEnable GL_BLEND;
         GlBlendFuncAlpha]
     ++ (if show_callsigns g then draw_callsigns f g w else [])
     ++ (if show_headings g then draw_headings f g w else [])
     ++ [end_frame f]).


(** ** Notions the properties are stated with *)

(** [glm::distance] *)
Definition distance (a b : vec3) : R := sqrt (length2 (sub3 a b)).

(** The shell the dust is meant to stay in, around [c]. *)
Definition in_shell (c p : vec3) : Prop :=
  minDustDist <= distance p c <= maxDustDist.

(** The cube a respawned particle lands in, around [c]. *)
Definition in_cube (c p : vec3) : Prop :=
  - maxDustDist <= x3 p - x3 c <= maxDustDist
  /\ - maxDustDist <= y3 p - y3 c <= maxDustDist
  /\ - maxDustDist <= z3 p - z3 c <= maxDustDist.

(** The particles of the dust, two ends at a time. *)
Fixpoint pairs (dust : list vec3) : list (vec3 * vec3) :=
  match dust with
  | p0 :: p1 :: rest => (p0, p1) :: pairs rest
  | _ => []
  end.

(** The uploads of positions to the dust buffer among the calls of a frame. *)
Fixpoint uploads (events : list Event) : list (list vec3) :=
  match events with
  | [] => []
  | GlBufferSubData positions :: rest => positions :: uploads rest
  | _ :: rest => uploads rest
  end.

(** A generator that draws the same fraction for ever. *)
Definition rng_const (u : R) : Rng := mkRng (fun _ => u) 0.

(** Does the entity emit in a frame at time [elapsed]?  The two tests of
    lines 262 and 264. *)
Definition emits (elapsed : R) (e : Entity) : bool :=
  match engine_emitter e, transform e, impulse_engine e with
  | Some ee, Some _, Some impulse =>
      negb (Reqb (actual impulse) 0)
      && Rgtb (elapsed - last_engine_particle_time ee) (1 / 10)
  | _, _, _ => false
  end.

(** The simulation sets the throttle between two frames. *)
Definition set_throttle (throttle : R) (e : Entity) : Entity :=
  match impulse_engine e with
  | Some _ =>
      mkEntity (handle e) (transform e) (physics e) (zone e) (engine_emitter e)
        (Some (mkImpulseEngine throttle)) (call_sign e) (target e)
  | None => e
  end.

(** The times at which an entity emits, over frames given by their time and
    the throttle in effect. *)
Fixpoint emission_times (frames : list (R * R)) (e : Entity) : list R :=
  match frames with
  | [] => []
  | (elapsed, throttle) :: rest =>
      let e := set_throttle throttle e in
      (if emits elapsed e then [elapsed] else [])
      ++ emission_times rest (fst (emit_engine_particles elapsed e))
  end.

(** Does [t] fall in the window of a tenth of a second that starts at [a]? *)
Definition in_window (a t : R) : bool := Rleb a t && Rleb t (a + 1 / 10).

(** The test of lines 199-200 as the code makes it: [insidePolygon] at the
    position of the zone minus the ground position of the camera.  That point
    is the place of the camera relative to the zone, reflected through the
    position of the zone; see [zone_holds_camera] for the place itself. *)
Definition zone_passes (camera : vec3) (z : Zone) (t : Transform) : bool :=
  insidePolygon (outline z)
    (sub2 (getPosition t) (mkvec2 (x3 camera) (y3 camera))).

(** A zone the loop passes over: no skybox, or the test of the code fails. *)
Definition passed_over (camera : vec3) (q : Entity * Zone * Transform) : Prop :=
  let '(_, z, t) := q in
  is_empty (skybox z) = true \/ zone_passes camera z t = false.

(** The distance the code computes the factor of a zone from (line 205): that
    of the same reflected point to the edge. *)
Definition zone_edge_distance (camera : vec3) (z : Zone) (t : Transform) : R :=
  distanceToEdge (outline z)
    (sub2 (getPosition t) (mkvec2 (x3 camera) (y3 camera))).

(** The condition as the specification words it, for comparison with the
    code's: does the outline of the zone, laid around the position of the
    zone, contain the ground position of the camera?  And how far is the
    camera from its edge?  The point is the ground position of the camera
    minus the position of the zone. *)
Definition zone_holds_camera (camera : vec3) (z : Zone) (t : Transform) : bool :=
  insidePolygon (outline z)
    (sub2 (mkvec2 (x3 camera) (y3 camera)) (getPosition t)).

Definition camera_edge_distance (camera : vec3) (z : Zone) (t : Transform) : R :=
  distanceToEdge (outline z)
    (sub2 (mkvec2 (x3 camera) (y3 camera)) (getPosition t)).

(** A pass over the pairs of the dust around [c], read off what it leaves:
    [dust_pass land c g before after n].  A pair whose first end is in the
    shell is left as it was.  A pair whose first end is not in the shell is
    respawned: both its ends are at the place the generator gives next, of
    which [land] holds, and the pass goes on with the generator past that
    place.  [n] is the number of pairs respawned. *)
Inductive dust_pass (land : vec3 -> Prop) (c : vec3)
    : Rng -> list (vec3 * vec3) -> list (vec3 * vec3) -> nat -> Prop :=
  | pass_done (g : Rng) : dust_pass land c g [] [] 0
  | pass_keep (g : Rng) (pair : vec3 * vec3) (before after : list (vec3 * vec3)) (n : nat) :
      in_shell c (fst pair) ->
      dust_pass land c g before after n ->
      dust_pass land c g (pair :: before) (pair :: after) n
  | pass_respawn (g : Rng) (pair : vec3 * vec3) (before after : list (vec3 * vec3)) (n : nat) :
      ~ in_shell c (fst pair) ->
      land (fst (respawn c g)) ->
      dust_pass land c (snd (respawn c g)) before after n ->
      dust_pass land c g (pair :: before)
        ((fst (respawn c g), fst (respawn c g)) :: after) (S n).

(** Any place will do. *)
Definition anywhere (p : vec3) : Prop := True.

(** Is a pair of the dust respawned by a pass around [c]? *)
Definition respawns (c : vec3) (dust : list vec3) : bool :=
  existsb (fun pair => outside_shell c (fst pair)) (pairs dust).

(** Times that follow [lo] and one another at more than a tenth of a
    second. *)
Fixpoint gapped (lo : R) (times : list R) : Prop :=
  match times with
  | [] => True
  | t :: rest => t - lo > 1 / 10 /\ gapped t rest
  end.

(** ** A world for the examples *)

(** Collaborators for the examples: an outline is a box, given by two
    opposite corners; angles are in degrees; virtual pixels are pixels. *)
Definition box_inside (box : list vec2) (p : vec2) : bool :=
  match box with
  | lo :: hi :: _ =>
      Rleb (x2 lo) (x2 p) && Rleb (x2 p) (x2 hi)
      && Rleb (y2 lo) (y2 p) && Rleb (y2 p) (y2 hi)
  | _ => false
  end.

Definition box_edge_distance (box : list vec2) (p : vec2) : R :=
  match box with
  | lo :: hi :: _ =>
      Rmin (Rmin (x2 p - x2 lo) (x2 hi - x2 p)) (Rmin (y2 p - y2 lo) (y2 hi - y2 p))
  | _ => 0
  end.

Definition turn (v : vec2) (angle : R) : vec2 :=
  mkvec2 (x2 v * cos (radians angle) - y2 v * sin (radians angle))
         (x2 v * sin (radians angle) + y2 v * cos (radians angle)).

Definition heading (angle : R) : vec2 :=
  mkvec2 (cos (radians angle)) (sin (radians angle)).

Definition pixels (_ : RenderTarget) (p : vec2) : vec2 := p.

(** The frame of the examples: one second in, the preference at 60 degrees,
    the player on entity 0. *)
Definition example_frame : Frame :=
  mkFrame (mkRenderTarget (mkvec2 800 600)) 1 60 None (Some 0%nat) false.

Definition example_transform : Transform := mkTransform (mkvec2 0 0) 0.

Definition example_engine : EngineEmitter :=
  mkEngineEmitter 0 [mkEmitter (mkvec3 (- 50) 0 0) (mkvec3 1 1 1) 4].

(** The ship of the player, under way. *)
Definition example_ship : Entity :=
  mkEntity 0 (Some example_transform)
    (Some (mkPhysics (mkvec2 200 200) (mkvec2 0 0))) None
    (Some example_engine) (Some (mkImpulseEngine 1))
    (Some (mkCallSign "SHIP")) (Some (mkTarget (Some 1%nat))).

(** A contact with a callsign and no physics, 100 units ahead of the example
    camera. *)
Definition example_contact_transform : Transform := mkTransform (mkvec2 100 0) 0.

Definition example_contact : Entity :=
  mkEntity 1 (Some example_contact_transform) None None None None
    (Some (mkCallSign "CV1")) None.

(** Three zones over one box around the origin: one without skybox, one that
    fades over 500 units, one that does not fade. *)
Definition example_box : list vec2 := [mkvec2 (- 1000) (- 1000); mkvec2 1000 1000].

Definition zone_plain : Zone := mkZone example_box "" 0.
Definition zone_nebula : Zone := mkZone example_box "nebula" 500.
Definition zone_void : Zone := mkZone example_box "void" 0.

Definition zone_entity (h : nat) (z : Zone) : Entity :=
  mkEntity h (Some example_transform) None (Some z) None None None None.

Definition example_world : World :=
  [example_ship; example_contact;
   zone_entity 2 zone_plain; zone_entity 3 zone_nebula; zone_entity 4 zone_void].

(** A zone at the origin whose outline reaches 1000 to the west and 200 to the
    east, alone in its world, and a widget with its camera at [camera]. *)
Definition lopsided_box : list vec2 := [mkvec2 (- 1000) (- 1000); mkvec2 200 1000].

Definition zone_lopsided : Zone := mkZone lopsided_box "nebula" 500.

Definition lopsided_world : World := [zone_entity 3 zone_lopsided].

Definition widget_at (camera : vec3) : GuiViewport3D :=
  mkGuiViewport3D (mkRect (mkvec2 0 0) (mkvec2 800 600))
    camera 0 0 true true true identity identity.

(** The widget of the examples, all its overlays on, and the same with a
    rectangle of no width. *)
Definition example_widget : GuiViewport3D :=
  mkGuiViewport3D (mkRect (mkvec2 0 0) (mkvec2 800 600))
    (mkvec3 0 0 0) 0 0 true true true identity identity.

Definition hidden_widget : GuiViewport3D :=
  mkGuiViewport3D (mkRect (mkvec2 0 0) (mkvec2 0 600))
    (mkvec3 0 0 0) 0 0 true true true identity identity.

(** The machine on its first frame: one pair of dust, at the origin. *)
Definition example_machine (g : GuiViewport3D) : Machine :=
  mkMachine g example_world [] [mkvec3 0 0 0; mkvec3 0 0 0]
    [mkvec3 0 0 0; mkvec3 0 0 0] (rng_const (9 / 10)).

(** ** Further notions: the projector *)

(** The X and Y after the division by [w], each in [-1, 1] for a point the
    viewport shows. *)
Definition ndc_x (self : GuiViewport3D) (world : vec3) : R :=
  let view_pos := mulmv (view_matrix self) (vec4_of world 1) in
  let clip := mulmv (projection_matrix self) view_pos in
  x4 clip / w4 clip.

Definition ndc_y (self : GuiViewport3D) (world : vec3) : R :=
  let view_pos := mulmv (view_matrix self) (vec4_of world 1) in
  let clip := mulmv (projection_matrix self) view_pos in
  y4 clip / w4 clip.

(** A world point in camera space, with the matrices of a frame. *)
Definition to_camera (fov : R) (g : GuiViewport3D) (world : vec3) : vec4 :=
  mulmv (view_matrix (camera_matrices fov g)) (vec4_of world 1).

(** The depth of a world point before a camera. *)
Definition depth_of (g : GuiViewport3D) (world : vec3) : R :=
  dot3 (sub3 world (camera_position g)) (camera_forward g).

(** The point at [k] times the offset of [world] from the camera. *)
Definition along_ray (g : GuiViewport3D) (k : R) (world : vec3) : vec3 :=
  add3 (camera_position g) (scale3 k (sub3 world (camera_position g))).

(** ** Further notions: the constructor and the life of the widget *)

(** [spacedust_particle_count], a constant of [viewport3d.h], which is not
    among the sources. *)
Variable spacedust_particle_count : nat.

(** The loop of lines 118-122 on the array [signs], whose contents are
    indeterminate before it: [signs[n]] and [signs[n + 1]] are the two
    elements at the head of the list, [n] advances by two. *)
Fixpoint fill_signs (signs : list R) : list R :=
  match signs with
  | _ :: _ :: rest => - 1 :: 1 :: fill_signs rest
  | _ => signs
  end.

(** Lines 126-130: the positions the constructor uploads. *)
Definition zeroed_positions : list vec3 :=
  repeat (mkvec3 0 0 0) (2 * spacedust_particle_count).

(** Lines 38-40: the switches of a new widget. *)
Definition GuiViewport3D_new (g : GuiViewport3D) : GuiViewport3D :=
  mkGuiViewport3D (rect g) (camera_position g) (camera_yaw g) (camera_pitch g)
    false false false (projection_matrix g) (view_matrix g).

(** The constructor, run in a process whose state is [m].  What it writes is
    the widget's own: the three switches (lines 38-40) and the positions of
    its dust buffer on the GPU (lines 126-130).  The statics are not the
    constructor's to set: the cubemaps of line 32 and the vector [space_dust]
    of line 292, whose [2 * spacedust_particle_count] elements are zeros when
    the process first reaches that line, stay as the process has them. *)
Definition GuiViewport3D_constructor (g : GuiViewport3D) (m : Machine) : Machine :=
  mkMachine (GuiViewport3D_new g) (world m) (skybox_textures m)
    (space_dust m) zeroed_positions (rng m).

(** [space_dust] as line 292 initialises it, once in the process. *)
Definition space_dust_initial (m : Machine) : Prop :=
  space_dust m = repeat (mkvec3 0 0 0) (2 * spacedust_particle_count).

(** Between two frames of the widget the game moves the camera, resizes the
    widget, flips its switches and changes the world; the statics of the file,
    the buffer and the generator are out of its reach.  (No other widget draws
    in between: its frames would write the statics.) *)
Definition between_frames (g : GuiViewport3D) (w : World) (m : Machine) : Machine :=
  mkMachine g w (skybox_textures m) (space_dust m) (spacedust_positions m) (rng m).

(** A run of frames, each with the widget and the world the game has made of
    them by then. *)
Fixpoint run (steps : list (GuiViewport3D * World * Frame)) (m : Machine) : Machine :=
  match steps with
  | [] => m
  | (g, w, f) :: rest => run rest (fst (onDraw f (between_frames g w m)))
  end.

(** The two ends of every pair of the dust are at one place. *)
Definition coincident (dust : list vec3) : Prop :=
  Forall (fun pair => fst pair = snd pair) (pairs dust).

(** The number of pairs a pass around [c] respawns. *)
Definition respawn_count (c : vec3) (dust : list vec3) : nat :=
  List.length (filter (fun pair => outside_shell c (fst pair)) (pairs dust)).

(** What holds of the dust from the constructor on. *)
Definition dust_invariant (m : Machine) : Prop :=
  spacedust_positions m = space_dust m
  /\ List.length (space_dust m) = (2 * spacedust_particle_count)%nat
  /\ coincident (space_dust m).

(** ** Further notions: the cubemaps and the engines *)

(** The cubemaps loaded among the calls of a frame, in order. *)
Fixpoint loads (events : list Event) : list string :=
  match events with
  | [] => []
  | CubemapLoad name :: rest => name :: loads rest
  | _ :: rest => loads rest
  end.

(** The time an entity last emitted at, 0 for an entity without emitter. *)
Definition last_emission (e : Entity) : R :=
  match engine_emitter e with
  | Some ee => last_engine_particle_time ee
  | None => 0
  end.

(** The emitter points of an entity. *)
Definition emitter_points (e : Entity) : list Emitter :=
  match engine_emitter e with
  | Some ee => emitters ee
  | None => []
  end.

(** An entity before and after a frame at time [elapsed]: nothing but the time
    of its last emission may have changed, and that to [elapsed], forward. *)
Definition same_but_emission (elapsed : R) (e e' : Entity) : Prop :=
  handle e' = handle e /\ transform e' = transform e /\ physics e' = physics e
  /\ zone e' = zone e /\ impulse_engine e' = impulse_engine e
  /\ call_sign e' = call_sign e /\ target e' = target e
  /\ emitter_points e' = emitter_points e
  /\ (e' = e \/ (last_emission e' = elapsed /\ last_emission e < elapsed)).

(** ** Further notions: the overlays *)

(** The calls of one kind among the calls of a frame. *)
Definition picked {A : Type} (pick : Event -> option A) (events : list Event) : list A :=
  flat_map (fun e => match pick e with Some a => [a] | None => [] end) events.

(** The texts drawn. *)
Definition drawn_text (e : Event) : option (Rect * string * R * u8vec4) :=
  match e with
  | DrawText r text font_size color => Some (r, text, font_size, color)
  | _ => None
  end.

(** The particles spawned. *)
Definition spawned_particle (e : Event) : option (vec3 * vec3 * R) :=
  match e with
  | ParticleSpawn position end_position _ _ scale _ _ => Some (position, end_position, scale)
  | _ => None
  end.

(** A label of the callsign pass: a rectangle of no size, a text size of at
    most 20, white with an alpha of at most 128. *)
Definition callsign_text (e : Event) : Prop :=
  match e with
  | DrawText r _ font_size color =>
      size r = mkvec2 0 0 /\ 0 <= font_size <= 20
      /\ red color = 255%Z /\ green color = 255%Z /\ blue color = 255%Z
      /\ (0 <= alpha color <= 128)%Z
  | _ => False
  end.

(** Line 455: the world point of a heading around the ship. *)
Definition heading_point (t : Transform) (angle : Z) : vec2 :=
  add2 (getPosition t) (scale2 (vec2FromAngle (IZR angle - 90)) 2500).

(** The entities of the world but the ship of the player. *)
Definition others (f : Frame) (w : World) : World :=
  filter (fun e => negb (is_entity e (my_spaceship f))) w.

(** The radius the reticle and the callsigns take for an entity. *)
Definition radius_of (e : Entity) : R :=
  match physics e with
  | Some p => x2 (getSize p)
  | None => 300
  end.

(** Where the reticle is moved to: the position of the target, on the
    ground. *)
Definition target_offset (e : Entity) : vec3 :=
  match transform e with
  | Some t => mkvec3 (x2 (getPosition t)) (y2 (getPosition t)) 0
  | None => mkvec3 0 0 0
  end.

(** ** Further notions: the state of OpenGL

    The part of the state of OpenGL that the calls [gl...] of [onDraw] set:
    three capabilities, the depth mask, the active texture unit, the cubemap
    bound on each of the two units the frame uses, the two buffer bindings
    and the viewport. *)
Record GlState := mkGlState {
  depth_test : bool;
  cull_face : bool;
  blend : bool;
  depth_mask : bool;
  active_texture : nat;
  cubemap_unit0 : option string;
  cubemap_unit1 : option string;
  array_buffer : Buffer;
  element_array_buffer : Buffer;
  viewport : R * R * R * R
}.

Definition set_capability (c : Capability) (on : bool) (s : GlState) : GlState :=
  match c with
  | GL_DEPTH_TEST =>
      mkGlState on (cull_face s) (blend s) (depth_mask s) (active_texture s)
        (cubemap_unit0 s) (cubemap_unit1 s) (array_buffer s) (element_array_buffer s)
        (viewport s)
  | GL_CULL_FACE =>
      mkGlState (depth_test s) on (blend s) (depth_mask s) (active_texture s)
        (cubemap_unit0 s) (cubemap_unit1 s) (array_buffer s) (element_array_buffer s)
        (viewport s)
  | GL_BLEND =>
      mkGlState (depth_test s) (cull_face s) on (depth_mask s) (active_texture s)
        (cubemap_unit0 s) (cubemap_unit1 s) (array_buffer s) (element_array_buffer s)
        (viewport s)
  end.

(** [glBindTexture(GL_TEXTURE_CUBE_MAP, ...)] binds on the active unit. *)
Definition set_cubemap (name : option string) (s : GlState) : GlState :=
  match active_texture s with
  | O =>
      mkGlState (depth_test s) (cull_face s) (blend s) (depth_mask s) (active_texture s)
        name (cubemap_unit1 s) (array_buffer s) (element_array_buffer s) (viewport s)
  | S O =>
      mkGlState (depth_test s) (cull_face s) (blend s) (depth_mask s) (active_texture s)
        (cubemap_unit0 s) name (array_buffer s) (element_array_buffer s) (viewport s)
  | _ => s
  end.

(** The effect of one call.  A call [gl...] of the source has the effect
    OpenGL gives it; a call to a collaborator (the render target, the shaders,
    the textures, the renderers of entities and of particles, the sound) has
    the effect [collaborator] gives it, whatever that is. *)
Definition gl_step (collaborator : Event -> GlState -> GlState)
    (s : GlState) (e : Event) : GlState :=
  match e with
  | GlEnable c => set_capability c true s
  | GlDisable c => set_capability c false s
  | GlDepthMask on =>
      mkGlState (depth_test s) (cull_face s) (blend s) on (active_texture s)
        (cubemap_unit0 s) (cubemap_unit1 s) (array_buffer s) (element_array_buffer s)
        (viewport s)
  | GlActiveTexture unit =>
      mkGlState (depth_test s) (cull_face s) (blend s) (depth_mask s) unit
        (cubemap_unit0 s) (cubemap_unit1 s) (array_buffer s) (element_array_buffer s)
        (viewport s)
  | CubemapUnbind => set_cubemap None s
  | GlBindBuffer GL_ARRAY_BUFFER b =>
      mkGlState (depth_test s) (cull_face s) (blend s) (depth_mask s) (active_texture s)
        (cubemap_unit0 s) (cubemap_unit1 s) b (element_array_buffer s) (viewport s)
  | GlBindBuffer GL_ELEMENT_ARRAY_BUFFER b =>
      mkGlState (depth_test s) (cull_face s) (blend s) (depth_mask s) (active_texture s)
        (cubemap_unit0 s) (cubemap_unit1 s) (array_buffer s) b (viewport s)
  | GlViewport x y width height =>
      mkGlState (depth_test s) (cull_face s) (blend s) (depth_mask s) (active_texture s)
        (cubemap_unit0 s) (cubemap_unit1 s) (array_buffer s) (element_array_buffer s)
        (x, y, width, height)
  | GlClearDepthf _ | GlClearDepth _ | GlClearDepthStencil
  | GlCullFaceBack | GlFrontFaceCCW | GlBlendFuncAlpha
  | GlUniform1f _ _ | GlUniform1i _ _ | GlUniform2f _ _ _ | GlUniform4f _ _ _ _ _
  | GlUniformMatrix4fv _ _ | GlVertexAttribPointer _ _ | GlBufferSubData _
  | GlDrawElements _ | GlDrawArrays _ => s
  | RendererFinish | SetListenerPosition _ _ | ShaderBind _ | ShaderRelease _
  | CubemapLoad _ | CubemapBind _ | TextureBind _
  | ParticleSpawn _ _ _ _ _ _ _ | UpdateProjectionView _ | Render3D _ _
  | ParticleRender _ _ | DrawText _ _ _ _ => collaborator e s
  end.

Definition gl_run (collaborator : Event -> GlState -> GlState)
    (s : GlState) (events : list Event) : GlState :=
  fold_left (gl_step collaborator) events s.

(** Is the call a text drawn on the render target? *)
Definition is_text (e : Event) : bool :=
  match e with
  | DrawText _ _ _ _ => true
  | _ => false
  end.

(** The calls of a frame up to the end of the starbox pass (line 258), and up
    to the overlays (line 426). *)
Definition through_starbox (f : Frame) (m : Machine) : list Event :=
  let g := camera_matrices (main_screen_camera_fov f) (self m) in
  begin_frame f (self m) (world m)
  ++ [GlDepthMask false]
  ++ snd (draw_starbox f g (world m) (skybox_textures m))
  ++ [GlDepthMask true].

Definition overlays (f : Frame) (m : Machine) : list Event :=
  let g := camera_matrices (main_screen_camera_fov f) (self m) in
  let w := fst (engine_particles (elapsed_time f) (world m)) in
  (if show_callsigns (self m) then draw_callsigns f g w else [])
  ++ (if show_headings (self m) then draw_headings f g w else []).

Definition through_scene (f : Frame) (m : Machine) : list Event :=
  let g := camera_matrices (main_screen_camera_fov f) (self m) in
  let w := fst (engine_particles (elapsed_time f) (world m)) in
  through_starbox f m
  ++ snd (engine_particles (elapsed_time f) (world m))
  ++ [UpdateProjectionView (view_matrix g);
      Render3D (x2 (size (rect g)) / y2 (size (rect g))) (main_screen_camera_fov f);
      ParticleRender (projection_matrix g) (view_matrix g)]
  ++ (if show_spacedust (self m) && is_valid (world m) (my_spaceship f)
      then snd (draw_spacedust f g w (space_dust m) (spacedust_positions m) (rng m))
      else [])
  ++ draw_target f w
  ++ [GlDepthMask true; GlDisable GL_BLEND; GlEnable GL_CULL_FACE;
      GlDisable GL_CULL_FACE; GlDisable GL_DEPTH_TEST; GlEnable GL_BLEND;
      GlBlendFuncAlpha].

(** Is the call one to [glDepthMask]? *)
Definition sets_depth_mask (e : Event) : bool :=
  match e with
  | GlDepthMask _ => true
  | _ => false
  end.

(** * Properties *)

(** ** Comparisons *)

Lemma Rltb_true (a b : R) : Rltb a b = true <-> a < b.
Proof. unfold Rltb; destruct (Rlt_dec a b); split; intros; try easy. Qed.

Lemma Rltb_false (a b : R) : Rltb a b = false <-> b <= a.
Proof.
  unfold Rltb; destruct (Rlt_dec a b); split; intros; try easy; lra.
Qed.

Lemma Rgtb_true (a b : R) : Rgtb a b = true <-> a > b.
Proof. unfold Rgtb; rewrite Rltb_true; unfold Rgt; split; intro H; exact H. Qed.

Lemma Rgtb_false (a b : R) : Rgtb a b = false <-> a <= b.
Proof. unfold Rgtb; apply Rltb_false. Qed.

Lemma Rleb_true (a b : R) : Rleb a b = true <-> a <= b.
Proof. unfold Rleb; destruct (Rle_dec a b); split; intros; try easy. Qed.

Lemma Rleb_false (a b : R) : Rleb a b = false <-> b < a.
Proof.
  unfold Rleb; destruct (Rle_dec a b); split; intros; try easy; lra.
Qed.

Lemma Reqb_true (a b : R) : Reqb a b = true <-> a = b.
Proof. unfold Reqb; destruct (Req_dec_T a b); split; intros; try easy. Qed.

Lemma Reqb_false (a b : R) : Reqb a b = false <-> a <> b.
Proof. unfold Reqb; destruct (Req_dec_T a b); split; intros; try easy. Qed.

(** Decides the comparisons left in a goal about concrete numbers. *)
Ltac float_cmp :=
  repeat match goal with
  | |- context [Rltb ?a ?b] =>
      first [ replace (Rltb a b) with true by (symmetry; apply Rltb_true; lra)
            | replace (Rltb a b) with false by (symmetry; apply Rltb_false; lra) ]
  | |- context [Rgtb ?a ?b] =>
      first [ replace (Rgtb a b) with true by (symmetry; apply Rgtb_true; lra)
            | replace (Rgtb a b) with false by (symmetry; apply Rgtb_false; lra) ]
  | |- context [Rleb ?a ?b] =>
      first [ replace (Rleb a b) with true by (symmetry; apply Rleb_true; lra)
            | replace (Rleb a b) with false by (symmetry; apply Rleb_false; lra) ]
  | |- context [Reqb ?a ?b] =>
      first [ replace (Reqb a b) with true by (symmetry; apply Reqb_true; lra)
            | replace (Reqb a b) with false by (symmetry; apply Reqb_false; lra) ]
  end.

(** ** Vectors and matrices, component by component *)

Lemma vec3_eq (a b c a' b' c' : R) :
  a = a' -> b = b' -> c = c' -> mkvec3 a b c = mkvec3 a' b' c'.
Proof. intros; subst; reflexivity. Qed.

Lemma vec4_eq (a b c d a' b' c' d' : R) :
  a = a' -> b = b' -> c = c' -> d = d' -> mkvec4 a b c d = mkvec4 a' b' c' d'.
Proof. intros; subst; reflexivity. Qed.

Lemma mat4_eq (a b c d a' b' c' d' : vec4) :
  a = a' -> b = b' -> c = c' -> d = d' -> mkmat4 a b c d = mkmat4 a' b' c' d'.
Proof. intros; subst; reflexivity. Qed.

(** *** Facts on the camera *)

Lemma radians_90 : radians 90 = PI / 2.
Proof. unfold radians; field. Qed.

Lemma normalize_x : normalize (mkvec3 1 0 0) = mkvec3 1 0 0.
Proof.
  unfold normalize, scale3, dot3; simpl.
  replace (1 * 1 + 0 * 0 + 0 * 0) with 1 by ring.
  rewrite sqrt_1, Rinv_1. apply vec3_eq; ring.
Qed.

Lemma normalize_z : normalize (mkvec3 0 0 1) = mkvec3 0 0 1.
Proof.
  unfold normalize, scale3, dot3; simpl.
  replace (0 * 0 + 0 * 0 + 1 * 1) with 1 by ring.
  rewrite sqrt_1, Rinv_1. apply vec3_eq; ring.
Qed.

(** A rotation about the first axis mixes the second and third columns. *)
Lemma rotate_x (m : mat4) (a : R) :
  rotate m a (mkvec3 1 0 0)
  = mkmat4 (col0 m)
      (add4 (scale4 (col1 m) (cos a)) (scale4 (col2 m) (sin a)))
      (add4 (scale4 (col2 m) (cos a)) (scale4 (col1 m) (- sin a)))
      (col3 m).
Proof.
  unfold rotate. rewrite normalize_x.
  destruct m as [[a0 a1 a2 a3] [b0 b1 b2 b3] [c0 c1 c2 c3] d].
  cbv [add4 scale4 scale3 x3 y3 z3 x4 y4 z4 w4 col0 col1 col2 col3].
  apply mat4_eq; try reflexivity; apply vec4_eq; ring.
Qed.

(** A rotation about the third axis mixes the first and second columns. *)
Lemma rotate_z (m : mat4) (a : R) :
  rotate m a (mkvec3 0 0 1)
  = mkmat4
      (add4 (scale4 (col0 m) (cos a)) (scale4 (col1 m) (sin a)))
      (add4 (scale4 (col1 m) (cos a)) (scale4 (col0 m) (- sin a)))
      (col2 m) (col3 m).
Proof.
  unfold rotate. rewrite normalize_z.
  destruct m as [[a0 a1 a2 a3] [b0 b1 b2 b3] [c0 c1 c2 c3] d].
  cbv [add4 scale4 scale3 x3 y3 z3 x4 y4 z4 w4 col0 col1 col2 col3].
  apply mat4_eq; try reflexivity; apply vec4_eq; ring.
Qed.

(** The camera-space position of a world point, once the frame has set its
    matrices: across, up and (negated) forward. *)
Lemma view_position (fov : R) (g : GuiViewport3D) (world : vec3) :
  let d := sub3 world (camera_position g) in
  let yaw := radians (camera_yaw g) in
  let pitch := radians (camera_pitch g) in
  mulmv (view_matrix (camera_matrices fov g)) (vec4_of world 1)
  = mkvec4 (- sin yaw * x3 d + cos yaw * y3 d)
           (sin pitch * (cos yaw * x3 d + sin yaw * y3 d) + cos pitch * z3 d)
           (- dot3 d (camera_forward g))
           1.
Proof.
  destruct g as [rc [px py pz] yaw pitch sc sh sd pm vm].
  destruct world as [wx wy wz].
  cbv [camera_matrices set_view_matrix set_projection_matrix camera_forward
       view_matrix camera_position camera_yaw camera_pitch rect].
  rewrite !rotate_x, rotate_z.
  rewrite radians_90, cos_PI2, sin_PI2.
  replace (radians (- pitch)) with (- radians pitch) by (unfold radians; ring).
  replace (radians (- (yaw + 90))) with (- (radians yaw + PI / 2))
    by (unfold radians; field).
  rewrite !cos_neg, !sin_neg.
  rewrite cos_plus, sin_plus, cos_PI2, sin_PI2.
  generalize (cos (radians yaw)) (sin (radians yaw))
             (cos (radians pitch)) (sin (radians pitch)).
  intros cy sy cp sp.
  cbv [mulmv translate scale identity add4 scale4 vec4_of
       neg3 sub3 dot3 x3 y3 z3 x4 y4 z4 w4 col0 col1 col2 col3].
  apply vec4_eq; ring.
Qed.

Lemma worldToScreen_depth (renderer : RenderTarget) (fov : R)
    (g : GuiViewport3D) (world : vec3) :
  z3 (project renderer (camera_matrices fov g) world)
  = dot3 (sub3 world (camera_position g)) (camera_forward g).
Proof.
  unfold project, worldToScreen.
  cbv [fst z3]. rewrite view_position.
  cbv [z4]. ring.
Qed.

Lemma project_spec (renderer : RenderTarget) (self : GuiViewport3D) (world : vec3) :
  project renderer self world = spec_worldToScreen self world.
Proof.
  unfold project, worldToScreen, spec_worldToScreen.
  cbv [fst div4 x4 y4].
  replace (5 / 10) with (/ 2) by lra.
  apply vec3_eq; try reflexivity;
    match goal with
    | |- context [?a / ?b * / 2] => generalize (a / b); intro q; field
    end.
Qed.

(** [worldToScreen] leaves the widget and the render target as they were. *)
Lemma worldToScreen_pure (renderer : RenderTarget) (world : vec3)
    (self : GuiViewport3D) :
  snd (worldToScreen renderer world self) = (self, renderer).
Proof. reflexivity. Qed.

(** The projection of the frame, applied to a camera-space position. *)
Lemma clip_position (fov : R) (g : GuiViewport3D) (v : vec4) :
  let aspect := x2 (size (rect g)) / y2 (size (rect g)) in
  let t := tan (radians fov / 2) in
  mulmv (projection_matrix (camera_matrices fov g)) v
  = mkvec4 (1 / (aspect * t) * x4 v)
           (1 / t * y4 v)
           (- (25000 + 1) / (25000 - 1) * z4 v + - (2 * 25000 * 1) / (25000 - 1) * w4 v)
           (- z4 v).
Proof.
  destruct g as [rc cam yaw pitch sc sh sd pm vm]; destruct v as [vx vy vz vw].
  cbv [camera_matrices set_view_matrix set_projection_matrix
       view_matrix projection_matrix rect perspective mulmv add4 scale4
       x4 y4 z4 w4 col0 col1 col2 col3].
  apply vec4_eq; ring.
Qed.

Lemma radians_0 : radians 0 = 0.
Proof. unfold radians; ring. Qed.

(** With yaw 0 the camera looks along the first world axis. *)
Lemma example_camera_forward (px py : R) :
  camera_forward (example_camera px py) = mkvec3 1 0 0.
Proof.
  cbv [camera_forward example_camera camera_yaw camera_pitch].
  rewrite radians_0, cos_0, sin_0. apply vec3_eq; ring.
Qed.

(** The world point [(0, 1000, 0)] is 1000 units to the right of that camera,
    at depth 0: its clip coordinate [w] is 0 and its clip [x] is not. *)
Lemma example_sideways_point (px py : R) :
  let g := camera_matrices 60 (example_camera px py) in
  let view_pos := mulmv (view_matrix g) (vec4_of (mkvec3 0 1000 0) 1) in
  view_pos = mkvec4 1000 0 0 1
  /\ w4 (mulmv (projection_matrix g) view_pos) = 0
  /\ x4 (mulmv (projection_matrix g) view_pos) <> 0.
Proof.
  cbv zeta. rewrite view_position, example_camera_forward.
  cbv [example_camera camera_position camera_yaw camera_pitch sub3 dot3 x3 y3 z3].
  rewrite radians_0, cos_0, sin_0.
  assert (E : mkvec4 (- 0 * (0 - 0) + 1 * (1000 - 0))
                (0 * (1 * (0 - 0) + 0 * (1000 - 0)) + 1 * (0 - 0))
                (- ((0 - 0) * 1 + (1000 - 0) * 0 + (0 - 0) * 0)) 1
              = mkvec4 1000 0 0 1) by (apply vec4_eq; ring).
  rewrite E; clear E. split; [reflexivity|].
  rewrite (clip_position 60 (example_camera px py)).
  cbv [x4 y4 z4 w4 example_camera rect size x2 y2].
  split; [ring|].
  replace (radians 60 / 2) with (PI / 6) by (unfold radians; field).
  rewrite tan_PI6.
  assert (0 < sqrt 3) by (apply sqrt_lt_R0; lra).
  assert (0 < 800 / 600 * (1 / sqrt 3)).
  { apply Rmult_lt_0_compat; [lra|]. apply Rdiv_lt_0_compat; lra. }
  assert (0 < 1 / (800 / 600 * (1 / sqrt 3))) by (apply Rdiv_lt_0_compat; lra).
  nra.
Qed.

(** ** The screen-space projector *)

(** The projection of a point straight ahead of the example camera. *)
Lemma example_forward_point (r : RenderTarget) (px py : R) :
  project r (camera_matrices 60 (example_camera px py)) (mkvec3 1000 0 0)
  = mkvec3 (px + 400) (py + 300) 1000.
Proof.
  rewrite project_spec. unfold spec_worldToScreen.
  rewrite view_position, example_camera_forward.
  cbv [example_camera camera_position camera_yaw camera_pitch sub3 dot3 x3 y3 z3].
  rewrite radians_0, cos_0, sin_0.
  assert (E : mkvec4 (- 0 * (1000 - 0) + 1 * (0 - 0))
                (0 * (1 * (1000 - 0) + 0 * (0 - 0)) + 1 * (0 - 0))
                (- ((1000 - 0) * 1 + (0 - 0) * 0 + (0 - 0) * 0)) 1
              = mkvec4 0 0 (- 1000) 1) by (apply vec4_eq; ring).
  rewrite E; clear E.
  rewrite (clip_position 60 (example_camera px py)).
  cbv [x4 y4 z4 w4 camera_matrices set_view_matrix set_projection_matrix
       example_camera rect size position x2 y2].
  generalize (1 / (800 / 600 * tan (radians 60 / 2))) (1 / tan (radians 60 / 2)).
  intros k1 k2. apply vec3_eq; field.
Qed.

(** For that point the Z after the division is below 1, far from the
    depth. *)
Lemma example_forward_ndc_z (px py : R) :
  ndc_z (camera_matrices 60 (example_camera px py)) (mkvec3 1000 0 0) = 24951 / 24999.
Proof.
  unfold ndc_z.
  rewrite view_position, example_camera_forward.
  cbv [example_camera camera_position camera_yaw camera_pitch sub3 dot3 x3 y3 z3].
  rewrite radians_0, cos_0, sin_0.
  assert (E : mkvec4 (- 0 * (1000 - 0) + 1 * (0 - 0))
                (0 * (1 * (1000 - 0) + 0 * (0 - 0)) + 1 * (0 - 0))
                (- ((1000 - 0) * 1 + (0 - 0) * 0 + (0 - 0) * 0)) 1
              = mkvec4 0 0 (- 1000) 1) by (apply vec4_eq; ring).
  rewrite E; clear E.
  rewrite (clip_position 60 (example_camera px py)).
  cbv [x4 y4 z4 w4]. field.
Qed.

(** C5. [worldToScreen] takes the world point through the view matrix and
    then the projection matrix, divides by [w], maps X and Y from [-1, 1] to
    [0, 1] with the vertical axis flipped, scales into the rectangle of the
    viewport, and returns as Z the depth in camera space; it hands back the
    widget and the render target as it got them.  With the matrices of a frame
    that depth is the component of [world - camera_position] along the
    direction the camera looks in, so it is positive in front of the camera;
    it is not the Z after the division, which differs from it for the point
    1000 units ahead of the example camera. *)
Theorem worldToScreen_projects (r : RenderTarget) (world : vec3) (g : GuiViewport3D) :
  worldToScreen r world g = (spec_worldToScreen g world, (g, r))
  /\ z3 (spec_worldToScreen g world)
     = - z4 (mulmv (view_matrix g) (vec4_of world 1))
  /\ (forall fov,
        z3 (fst (worldToScreen r world (camera_matrices fov g)))
        = dot3 (sub3 world (camera_position g)) (camera_forward g))
  /\ (let ahead := mkvec3 1000 0 0 in
      let camera := camera_matrices 60 (example_camera 0 0) in
      z3 (fst (worldToScreen r ahead camera)) <> ndc_z camera ahead).
Proof.
  split; [|split; [|split]].
  - rewrite (surjective_pairing (worldToScreen r world g)).
    rewrite worldToScreen_pure.
    change (fst (worldToScreen r world g)) with (project r g world).
    rewrite project_spec. reflexivity.
  - reflexivity.
  - intro fov. apply (worldToScreen_depth r fov g world).
  - cbv zeta.
    change (fst (worldToScreen r ?w ?c)) with (project r c w).
    rewrite example_forward_point, example_forward_ndc_z. cbv [z3]. lra.
Qed.

(** C2, as the code has it.  With the camera at the origin, yaw 0, pitch 0, a
    field of view of 60 degrees and a viewport of 800 by 600, the camera looks
    along the first world axis: [worldToScreen] sends the world point
    [(1000, 0, 0)] to the centre of the viewport, at depth 1000. *)
Theorem worldToScreen_forward_is_centre (r : RenderTarget) (px py : R) :
  let g := camera_matrices 60 (example_camera px py) in
  let p := fst (worldToScreen r (mkvec3 1000 0 0) g) in
  x3 p = x2 (position (rect g)) + x2 (size (rect g)) / 2
  /\ y3 p = y2 (position (rect g)) + y2 (size (rect g)) / 2
  /\ z3 p = 1000 /\ 0 < z3 p.
Proof.
  cbv zeta.
  change (fst (worldToScreen r (mkvec3 1000 0 0)
                 (camera_matrices 60 (example_camera px py))))
    with (project r (camera_matrices 60 (example_camera px py)) (mkvec3 1000 0 0)).
  rewrite example_forward_point.
  cbv [camera_matrices set_view_matrix set_projection_matrix example_camera
       rect size position x2 y2 x3 y3 z3].
  repeat split; lra.
Qed.

(** C2, as stated, fails: the world point [(0, 1000, 0)] is beside that
    camera ([example_sideways_point]): its depth is 0, not positive, and the
    perspective division divides by a [w] of 0, so that it has no place on the
    screen. *)
Lemma worldToScreen_sideways_counterexample :
  let r := mkRenderTarget (mkvec2 800 600) in
  let g := camera_matrices 60 (example_camera 0 0) in
  let p := fst (worldToScreen r (mkvec3 0 1000 0) g) in
  ~ (x3 p = 400 /\ y3 p = 300 /\ 0 < z3 p).
Proof.
  cbv zeta. intros (_ & _ & H).
  change (fst (worldToScreen ?r ?w ?g)) with (project r g w) in H.
  rewrite worldToScreen_depth, example_camera_forward in H.
  cbv [example_camera camera_position sub3 dot3 x3 y3 z3] in H.
  lra.
Qed.

(** ** Space dust *)

Lemma pairs_ind (P : list vec3 -> Prop) :
  P [] -> (forall p, P [p]) ->
  (forall p0 p1 rest, P rest -> P (p0 :: p1 :: rest)) ->
  forall dust, P dust.
Proof.
  intros H0 H1 H2 dust.
  assert (H : P dust /\ forall p, P (p :: dust)).
  { induction dust as [|q rest [IH1 IH2]]; split; auto. }
  apply H.
Qed.

Lemma length2_nonneg (v : vec3) : 0 <= length2 v.
Proof.
  destruct v as [a b c]; cbv [length2 dot3 x3 y3 z3]. nra.
Qed.

(** The test of the loop, read on the distance. *)
Lemma outside_shell_false (c p : vec3) :
  outside_shell c p = false <-> in_shell c p.
Proof.
  unfold outside_shell, in_shell, distance, maxDustDist, minDustDist.
  pose proof (length2_nonneg (sub3 p c)) as Hpos.
  set (L := length2 (sub3 p c)) in *.
  rewrite orb_false_iff, Rgtb_false, Rltb_false.
  split.
  - intros [Hmax Hmin]. split.
    + rewrite <- (sqrt_square 100) by lra. apply sqrt_le_1_alt; lra.
    + rewrite <- (sqrt_square 500) by lra. apply sqrt_le_1_alt; lra.
  - intros [Hmin Hmax].
    pose proof (sqrt_sqrt L Hpos) as HL.
    pose proof (sqrt_pos L) as Hs.
    split; nra.
Qed.

Lemma respawn_draws (c : vec3) (g : Rng) : draws (snd (respawn c g)) = draws g.
Proof. reflexivity. Qed.

Lemma respawn_cursor (c : vec3) (g : Rng) :
  cursor (snd (respawn c g)) = S (S (S (cursor g))).
Proof. reflexivity. Qed.

Lemma respawn_fair (c : vec3) (g : Rng) : fair g -> fair (snd (respawn c g)).
Proof. intros H n. rewrite respawn_draws. apply H. Qed.

(** A respawned particle lands in the cube of half-side 500 around the
    centre. *)
Lemma respawn_in_cube (c : vec3) (g : Rng) : fair g -> in_cube c (fst (respawn c g)).
Proof.
  intros H. destruct c as [cx cy cz]; destruct g as [d n].
  cbv [respawn random fst snd draws cursor in_cube add3 x3 y3 z3 maxDustDist].
  pose proof (H n) as H0; pose proof (H (S n)) as H1; pose proof (H (S (S n))) as H2.
  cbv [draws] in H0, H1, H2.
  repeat split; lra.
Qed.

Lemma update_space_dust_pair (c p0 p1 : vec3) (rest : list vec3) (u : bool) (g : Rng) :
  update_space_dust c (p0 :: p1 :: rest) u g
  = if outside_shell c p0 then
      let '(rest', u', g') := update_space_dust c rest true (snd (respawn c g)) in
      (fst (respawn c g) :: fst (respawn c g) :: rest', u', g')
    else
      let '(rest', u', g') := update_space_dust c rest u g in
      (p0 :: p1 :: rest', u', g').
Proof. reflexivity. Qed.

Lemma update_space_dust_fair (c : vec3) (dust : list vec3) :
  forall u g, fair g -> fair (snd (update_space_dust c dust u g)).
Proof.
  induction dust as [| p | p0 p1 rest IH] using pairs_ind; intros u g H; try exact H.
  rewrite update_space_dust_pair.
  destruct (outside_shell c p0).
  - specialize (IH true _ (respawn_fair c g H)).
    destruct (update_space_dust c rest true (snd (respawn c g))) as [[rest' u'] g'].
    exact IH.
  - specialize (IH u g H).
    destruct (update_space_dust c rest u g) as [[rest' u'] g'].
    exact IH.
Qed.

(** What a pass leaves, pair by pair, and the flag it raises. *)
Lemma update_space_dust_pass (land : vec3 -> Prop) (c : vec3) (dust : list vec3) :
  forall u g,
  (forall g', draws g' = draws g -> land (fst (respawn c g'))) ->
  exists n,
    dust_pass land c g (pairs dust) (pairs (fst (fst (update_space_dust c dust u g)))) n
    /\ snd (fst (update_space_dust c dust u g)) = u || negb (Nat.eqb n 0)
    /\ (n = 0%nat -> fst (fst (update_space_dust c dust u g)) = dust).
Proof.
  induction dust as [| p | p0 p1 rest IH] using pairs_ind; intros u g Hland;
    try (exists 0%nat; cbn [update_space_dust pairs fst snd Nat.eqb negb];
         split; [constructor|split; [symmetry; apply orb_false_r|reflexivity]]).
  rewrite update_space_dust_pair.
  destruct (outside_shell c p0) eqn:E.
  - assert (Hout : ~ in_shell c p0).
    { intros Hin. apply outside_shell_false in Hin. congruence. }
    destruct (IH true (snd (respawn c g))) as (n & Hpass & Hflag & _).
    { intros g' Hd. apply Hland. rewrite Hd. apply respawn_draws. }
    destruct (update_space_dust c rest true (snd (respawn c g))) as [[rest' u'] g'].
    cbn [fst snd pairs] in *. exists (S n). split; [|split].
    + apply (pass_respawn land c g (p0, p1)); [exact Hout| |exact Hpass].
      apply Hland. reflexivity.
    + rewrite Hflag. cbn [orb Nat.eqb negb]. symmetry. apply orb_true_r.
    + discriminate.
  - assert (Hin : in_shell c p0) by (apply outside_shell_false, E).
    destruct (IH u g Hland) as (n & Hpass & Hflag & Hsame).
    destruct (update_space_dust c rest u g) as [[rest' u'] g'].
    cbn [fst snd pairs] in *. exists n. split; [|split].
    + apply (pass_keep land c g (p0, p1)); assumption.
    + exact Hflag.
    + intros Hn. rewrite (Hsame Hn). reflexivity.
Qed.

(** C1, as the code has it.  With a generator whose fractions lie between 0
    and 1, a pass leaves every pair it visits in one of two ways.  A pair whose
    first end is within the shell [100, 500] around the dust centre is left
    untouched.  A pair whose first end is not is respawned: both its ends are
    at the place the generator draws next, which is in the cube of half-side
    500 around the dust centre, in the shell or not.  The pass does not test
    the place it respawns at. *)
Theorem update_space_dust_visited (c : vec3) (dust : list vec3) (u : bool) (g : Rng) :
  fair g ->
  exists n,
    dust_pass (in_cube c) c g (pairs dust)
      (pairs (fst (fst (update_space_dust c dust u g)))) n.
Proof.
  intros Hfair.
  destruct (update_space_dust_pass (in_cube c) c dust u g) as (n & Hpass & _).
  - intros g' Hd. apply respawn_in_cube. intro k. rewrite Hd. apply Hfair.
  - exists n. exact Hpass.
Qed.

(** C1, as stated, fails.  On the first frame every particle is at the origin;
    with the dust centre there too the pair is respawned, here at
    [(400, 400, 400)], which is farther than 500 from the centre. *)
Lemma update_space_dust_counterexample :
  let c := mkvec3 0 0 0 in
  let g := rng_const (9 / 10) in
  fair g
  /\ ~ Forall (in_shell c) (fst (fst (update_space_dust c [c; c] false g))).
Proof.
  cbv zeta. split.
  - intro n. cbv [rng_const draws]. lra.
  - rewrite update_space_dust_pair.
    assert (E : outside_shell (mkvec3 0 0 0) (mkvec3 0 0 0) = true).
    { cbv [outside_shell sub3 length2 dot3 x3 y3 z3 maxDustDist minDustDist].
      float_cmp. reflexivity. }
    rewrite E.
    cbv [update_space_dust fst snd respawn random rng_const draws cursor
         add3 x3 y3 z3 maxDustDist].
    intro H. inversion H as [| p l Hp _]; subst.
    destruct Hp as [_ Hmax].
    cbv [distance length2 sub3 dot3 x3 y3 z3 maxDustDist] in Hmax.
    assert (Hlt : sqrt (500 * 500) < sqrt
      ((0 + (- (500) + 9 / 10 * (500 - - (500))) - 0) * (0 + (- (500) + 9 / 10 * (500 - - (500))) - 0)
       + (0 + (- (500) + 9 / 10 * (500 - - (500))) - 0) * (0 + (- (500) + 9 / 10 * (500 - - (500))) - 0)
       + (0 + (- (500) + 9 / 10 * (500 - - (500))) - 0) * (0 + (- (500) + 9 / 10 * (500 - - (500))) - 0))).
    { apply sqrt_lt_1_alt. lra. }
    rewrite sqrt_square in Hlt by lra. lra.
Qed.

(** The flag of the loop: raised before, or by a respawn. *)
Lemma update_space_dust_flag (c : vec3) (dust : list vec3) :
  forall u g, snd (fst (update_space_dust c dust u g)) = u || respawns c dust.
Proof.
  unfold respawns.
  induction dust as [| p | p0 p1 rest IH] using pairs_ind; intros u g;
    try (cbv [update_space_dust pairs fst snd existsb]; rewrite orb_false_r; reflexivity).
  rewrite update_space_dust_pair. cbn [pairs existsb fst].
  destruct (outside_shell c p0).
  - specialize (IH true (snd (respawn c g))).
    destruct (update_space_dust c rest true (snd (respawn c g))) as [[rest' u'] g'].
    cbv [fst snd] in IH |- *. rewrite IH. cbn [orb]. rewrite orb_true_r. reflexivity.
  - specialize (IH u g).
    destruct (update_space_dust c rest u g) as [[rest' u'] g'].
    cbv [fst snd] in IH |- *. rewrite IH. reflexivity.
Qed.

(** A pass that respawns nothing leaves the particles and the generator. *)
Lemma update_space_dust_quiet (c : vec3) (dust : list vec3) :
  forall u g, respawns c dust = false -> update_space_dust c dust u g = (dust, u, g).
Proof.
  unfold respawns.
  induction dust as [| p | p0 p1 rest IH] using pairs_ind; intros u g H;
    try reflexivity.
  rewrite update_space_dust_pair. cbn [pairs existsb fst] in H.
  apply orb_false_iff in H. destruct H as [H0 H].
  rewrite H0, (IH u g H). reflexivity.
Qed.

(** The dust pass uploads the positions when, and only when, the loop
    respawned a pair. *)
Lemma draw_spacedust_uploads (f : Frame) (g : GuiViewport3D) (w : World)
    (dust buffer : list vec3) (r : Rng) :
  let respawned := respawns (dust_center_of f g w) dust in
  let '(dust', buffer', _, events) := draw_spacedust f g w dust buffer r in
  uploads events = (if respawned then [dust'] else [])
  /\ buffer' = (if respawned then dust' else buffer)
  /\ (respawned = false -> dust' = dust).
Proof.
  cbv zeta. unfold draw_spacedust.
  pose proof (update_space_dust_flag (dust_center_of f g w) dust false r) as Hflag.
  pose proof (update_space_dust_quiet (dust_center_of f g w) dust false r) as Hquiet.
  destruct (update_space_dust (dust_center_of f g w) dust false r) as [[dust' u] r'].
  cbv [fst snd] in Hflag. cbn [orb] in Hflag. subst u.
  destruct (respawns (dust_center_of f g w) dust).
  - repeat split; try reflexivity. discriminate.
  - repeat split; try reflexivity. intros _.
    specialize (Hquiet eq_refl). congruence.
Qed.

(** *** The uploads of a whole frame *)

Lemma uploads_app (a b : list Event) : uploads (a ++ b) = uploads a ++ uploads b.
Proof.
  induction a as [|e a IH]; [reflexivity|].
  destruct e; cbn [app uploads]; rewrite ?IH; reflexivity.
Qed.

Lemma uploads_none (l : list Event) :
  Forall (fun e => uploads [e] = []) l -> uploads l = [].
Proof.
  induction 1 as [|e l He _ IH]; [reflexivity|].
  change (e :: l) with ([e] ++ l). rewrite uploads_app, He, IH. reflexivity.
Qed.

Lemma uploads_flat_map {A : Type} (f : A -> list Event) (l : list A) :
  (forall a, uploads (f a) = []) -> uploads (flat_map f l) = [].
Proof.
  intros H. induction l as [|a l IH]; [reflexivity|].
  cbn [flat_map]. rewrite uploads_app, H, IH. reflexivity.
Qed.

Lemma camera_matrices_fields (fov : R) (g : GuiViewport3D) :
  rect (camera_matrices fov g) = rect g
  /\ camera_position (camera_matrices fov g) = camera_position g
  /\ camera_yaw (camera_matrices fov g) = camera_yaw g
  /\ camera_pitch (camera_matrices fov g) = camera_pitch g
  /\ show_callsigns (camera_matrices fov g) = show_callsigns g
  /\ show_headings (camera_matrices fov g) = show_headings g
  /\ show_spacedust (camera_matrices fov g) = show_spacedust g.
Proof. destruct g; repeat split; reflexivity. Qed.

(** The engine pass touches nothing but the time of the last emission. *)
Lemma emit_engine_particles_fields (elapsed : R) (e : Entity) :
  let e' := fst (emit_engine_particles elapsed e) in
  handle e' = handle e /\ transform e' = transform e /\ physics e' = physics e
  /\ zone e' = zone e /\ impulse_engine e' = impulse_engine e
  /\ call_sign e' = call_sign e /\ target e' = target e.
Proof.
  cbv zeta. unfold emit_engine_particles, set_last_engine_particle_time.
  destruct (engine_emitter e) as [ee|], (transform e) as [t|] eqn:Et,
    (impulse_engine e) as [i|] eqn:Ei; cbn [fst]; try (repeat split; congruence).
  destruct (negb (Reqb (actual i) 0)); cbn [fst]; try (repeat split; congruence).
  destruct (Rgtb (elapsed - last_engine_particle_time ee) (1 / 10)); cbn [fst];
    repeat split; try congruence; reflexivity.
Qed.

Lemma engine_particles_map (elapsed : R) (w : World) :
  fst (engine_particles elapsed w)
  = map (fun e => fst (emit_engine_particles elapsed e)) w.
Proof.
  induction w as [|e w IH]; [reflexivity|].
  cbn [engine_particles map].
  destruct (emit_engine_particles elapsed e) as [e' s].
  destruct (engine_particles elapsed w) as [w' s'].
  cbn [fst] in *. rewrite IH. reflexivity.
Qed.

Lemma engine_particles_spawned (elapsed : R) (w : World) :
  snd (engine_particles elapsed w)
  = flat_map (fun e => snd (emit_engine_particles elapsed e)) w.
Proof.
  induction w as [|e w IH]; [reflexivity|].
  cbn [engine_particles flat_map].
  destruct (emit_engine_particles elapsed e) as [e' s].
  destruct (engine_particles elapsed w) as [w' s'].
  cbn [snd] in *. rewrite IH. reflexivity.
Qed.

Lemma engine_particles_find (elapsed : R) (w : World) (h : option nat) :
  find_entity (fst (engine_particles elapsed w)) h
  = option_map (fun e => fst (emit_engine_particles elapsed e)) (find_entity w h).
Proof.
  rewrite engine_particles_map. destruct h as [n|]; [|reflexivity].
  cbn [find_entity]. induction w as [|e w IH]; [reflexivity|].
  cbn [map find].
  destruct (emit_engine_particles_fields elapsed e) as (Hh & _). rewrite Hh.
  destruct (Nat.eqb (handle e) n); [reflexivity|exact IH].
Qed.

Lemma engine_particles_transform (elapsed : R) (w : World) (h : option nat) :
  getComponent transform (fst (engine_particles elapsed w)) h = getComponent transform w h.
Proof.
  unfold getComponent. rewrite engine_particles_find.
  destruct (find_entity w h) as [e|]; [|reflexivity]. cbn [option_map].
  apply (emit_engine_particles_fields elapsed e).
Qed.

Lemma engine_particles_valid (elapsed : R) (w : World) (h : option nat) :
  is_valid (fst (engine_particles elapsed w)) h = is_valid w h.
Proof.
  unfold is_valid. rewrite engine_particles_find.
  destruct (find_entity w h); reflexivity.
Qed.

Lemma engine_particles_events (elapsed : R) (w : World) :
  uploads (snd (engine_particles elapsed w)) = [].
Proof.
  induction w as [|e w IH]; [reflexivity|].
  cbn [engine_particles].
  destruct (emit_engine_particles elapsed e) as [e' s] eqn:E.
  destruct (engine_particles elapsed w) as [w' s'].
  cbn [snd] in *. rewrite uploads_app, IH, app_nil_r.
  unfold emit_engine_particles in E.
  destruct (engine_emitter e) as [ee|], (transform e) as [t|],
    (impulse_engine e) as [i|]; try (inversion E; reflexivity).
  destruct (negb (Reqb (actual i) 0)); try (inversion E; reflexivity).
  destruct (Rgtb (elapsed - last_engine_particle_time ee) (1 / 10));
    inversion E; [|reflexivity].
  clear. induction (emitters ee) as [|ed l IH]; [reflexivity|exact IH].
Qed.

Lemma draw_starbox_events (f : Frame) (g : GuiViewport3D) (w : World) (cache : list string) :
  uploads (snd (draw_starbox f g w cache)) = [].
Proof.
  unfold draw_starbox.
  destruct (select_skybox f g w) as [n [l k]].
  unfold cubemap.
  destruct (existsb (String.eqb n) cache);
    [destruct (existsb (String.eqb l) cache)
    |destruct (existsb (String.eqb l) (n :: cache))]; reflexivity.
Qed.

Lemma draw_target_events (f : Frame) (w : World) : uploads (draw_target f w) = [].
Proof.
  unfold draw_target.
  destruct (getComponent target w (my_spaceship f)) as [tc|]; [|reflexivity].
  destruct (find_entity w (target_entity tc)); reflexivity.
Qed.

Lemma draw_callsigns_events (f : Frame) (g : GuiViewport3D) (w : World) :
  uploads (draw_callsigns f g w) = [].
Proof.
  apply uploads_flat_map. intro e. unfold draw_callsign, callsign_label.
  destruct (call_sign e), (transform e); try reflexivity.
  destruct (is_entity e (my_spaceship f)); [reflexivity|].
  destruct (Rltb _ 0); [reflexivity|].
  destruct (Rgtb _ 10000); reflexivity.
Qed.

Lemma draw_headings_events (f : Frame) (g : GuiViewport3D) (w : World) :
  uploads (draw_headings f g w) = [].
Proof.
  unfold draw_headings.
  destruct (find_entity w (my_spaceship f)) as [ship|]; [|reflexivity].
  destruct (transform ship); [|reflexivity].
  apply uploads_flat_map. intro a. unfold draw_heading.
  destruct (Rgtb _ 0); reflexivity.
Qed.

Lemma begin_frame_events (f : Frame) (g : GuiViewport3D) (w : World) :
  uploads (begin_frame f g w) = [].
Proof.
  unfold begin_frame.
  destruct (getComponent transform w (my_spaceship f));
    destruct (GLAD_GL_ES_VERSION_2_0 f); reflexivity.
Qed.

Lemma dust_center_of_frame (f : Frame) (fov elapsed : R) (g : GuiViewport3D) (w : World) :
  dust_center_of f (camera_matrices fov g) (fst (engine_particles elapsed w))
  = dust_center_of f g w.
Proof.
  unfold dust_center_of. rewrite engine_particles_transform.
  destruct (camera_matrices_fields fov g) as (_ & -> & _). reflexivity.
Qed.

(** The dust pass, read off what it leaves and what it uploads. *)
Lemma draw_spacedust_pass (f : Frame) (g : GuiViewport3D) (w : World)
    (dust buffer : list vec3) (r : Rng) :
  let pass := draw_spacedust f g w dust buffer r in
  let dust' := fst (fst (fst pass)) in
  exists n,
    dust_pass anywhere (dust_center_of f g w) r (pairs dust) (pairs dust') n
    /\ uploads (snd pass) = (if Nat.eqb n 0 then [] else [dust'])
    /\ snd (fst (fst pass)) = (if Nat.eqb n 0 then buffer else dust')
    /\ (n = 0%nat -> dust' = dust).
Proof.
  cbv zeta. unfold draw_spacedust.
  destruct (update_space_dust_pass anywhere (dust_center_of f g w) dust false r)
    as (n & Hpass & Hflag & Hsame).
  { intros g' _. exact I. }
  destruct (update_space_dust (dust_center_of f g w) dust false r) as [[dust' u] r'].
  cbn [fst snd orb] in *. subst u. exists n.
  split; [exact Hpass|].
  destruct (Nat.eqb n 0); cbn [negb]; repeat split; assumption.
Qed.

(** C8.  In a frame that draws the space dust, the pass respawns the pairs
    whose first end is outside the shell, and those only; the positions are
    uploaded to the buffer of the GPU if and only if it respawned at least
    one: then they are uploaded once, and they are the particles after the
    pass.  When no pair was respawned, the buffer and the particles are left
    as they were. *)
Theorem onDraw_uploads (f : Frame) (m : Machine) :
  x2 (size (rect (self m))) <> 0 ->
  show_spacedust (self m) = true ->
  is_valid (world m) (my_spaceship f) = true ->
  let c := dust_center_of f (self m) (world m) in
  let '(m', events) := onDraw f m in
  exists n,
    dust_pass anywhere c (rng m) (pairs (space_dust m)) (pairs (space_dust m')) n
    /\ uploads events = (if Nat.eqb n 0 then [] else [space_dust m'])
    /\ spacedust_positions m'
       = (if Nat.eqb n 0 then spacedust_positions m else space_dust m')
    /\ (n = 0%nat -> space_dust m' = space_dust m).
Proof.
  intros Hwidth Hshow Hship. cbv zeta. unfold onDraw.
  apply Reqb_false in Hwidth. rewrite Hwidth.
  pose proof (draw_starbox_events f (camera_matrices (main_screen_camera_fov f) (self m))
                (world m) (skybox_textures m)) as Hstar.
  destruct (draw_starbox f (camera_matrices (main_screen_camera_fov f) (self m))
              (world m) (skybox_textures m)) as [cache starbox].
  pose proof (engine_particles_events (elapsed_time f) (world m)) as Hpart.
  pose proof (engine_particles_valid (elapsed_time f) (world m) (my_spaceship f)) as Hvalid.
  pose proof (dust_center_of_frame f (main_screen_camera_fov f) (elapsed_time f)
                (self m) (world m)) as Hcenter.
  destruct (engine_particles (elapsed_time f) (world m)) as [w particles].
  cbn [fst snd] in Hstar, Hpart, Hvalid, Hcenter.
  destruct (camera_matrices_fields (main_screen_camera_fov f) (self m))
    as (_ & _ & _ & _ & _ & _ & Hsd).
  rewrite Hsd, Hshow, Hvalid, Hship. cbn [andb].
  pose proof (draw_spacedust_pass f (camera_matrices (main_screen_camera_fov f) (self m))
                w (space_dust m) (spacedust_positions m) (rng m)) as Hdust.
  cbv zeta in Hdust. rewrite Hcenter in Hdust.
  destruct (draw_spacedust f (camera_matrices (main_screen_camera_fov f) (self m))
              w (space_dust m) (spacedust_positions m) (rng m))
    as [[[dust buffer] r] spacedust].
  cbn [fst snd] in Hdust. destruct Hdust as (n & Hpass & Hup & Hbuf & Hsame).
  exists n. cbn [space_dust spacedust_positions].
  split; [exact Hpass|]. split; [|split; assumption].
  rewrite !uploads_app, begin_frame_events, Hstar, Hpart, Hup, draw_target_events.
  assert (Hc : uploads (if show_callsigns (camera_matrices (main_screen_camera_fov f) (self m))
                        then draw_callsigns f (camera_matrices (main_screen_camera_fov f) (self m)) w
                        else []) = []).
  { destruct (show_callsigns _); [apply draw_callsigns_events|reflexivity]. }
  assert (Hh : uploads (if show_headings (camera_matrices (main_screen_camera_fov f) (self m))
                        then draw_headings f (camera_matrices (main_screen_camera_fov f) (self m)) w
                        else []) = []).
  { destruct (show_headings _); [apply draw_headings_events|reflexivity]. }
  rewrite Hc, Hh. cbn [uploads app]. rewrite app_nil_r. reflexivity.
Qed.

(** ** The skybox *)

Lemma select_local_skybox_passes (camera : vec3)
    (before rest : list (Entity * Zone * Transform)) (found : string * R) :
  Forall (passed_over camera) before ->
  select_local_skybox camera (before ++ rest) found
  = select_local_skybox camera rest found.
Proof.
  induction 1 as [|[[e z] t] before Hq _ IH]; [reflexivity|].
  cbn [app select_local_skybox]. unfold passed_over, zone_passes in Hq.
  destruct (is_empty (skybox z)); [exact IH|].
  destruct Hq as [Hq|Hq]; [discriminate|]. rewrite Hq. exact IH.
Qed.

Lemma select_local_skybox_match (camera : vec3) (e : Entity) (z : Zone) (t : Transform)
    (after : list (Entity * Zone * Transform)) (found : string * R) :
  is_empty (skybox z) = false -> zone_passes camera z t = true ->
  select_local_skybox camera ((e, z, t) :: after) found
  = (("skybox/" ++ skybox z)%string,
     if Rleb (skybox_fade_distance z) 0 then 1
     else clamp (zone_edge_distance camera z t / skybox_fade_distance z) 0 1).
Proof.
  intros He Hc. cbn [select_local_skybox]. unfold zone_passes in Hc.
  rewrite He, Hc. unfold zone_edge_distance.
  destruct (Rleb (skybox_fade_distance z) 0); reflexivity.
Qed.

Lemma clamp_range (v lo hi : R) : lo <= hi -> lo <= clamp v lo hi <= hi.
Proof.
  intros H. unfold clamp.
  destruct (Rltb v lo) eqn:E1; [lra|].
  destruct (Rltb hi v) eqn:E2; [lra|].
  apply Rltb_false in E1, E2. lra.
Qed.

(** The order of the selection.  The local skybox is that of the first zone of
    the query, among those with a skybox, that passes the test of the code
    ([zone_passes], on the reflected offset); whatever zones follow it in the
    query make no difference. *)
Lemma local_skybox_first_match (f : Frame) (g : GuiViewport3D) (w : World)
    (before after : list (Entity * Zone * Transform))
    (e : Entity) (z : Zone) (t : Transform) :
  query_zones w = before ++ (e, z, t) :: after ->
  Forall (passed_over (camera_position g)) before ->
  is_empty (skybox z) = false ->
  zone_passes (camera_position g) z t = true ->
  fst (snd (select_skybox f g w)) = ("skybox/" ++ skybox z)%string
  /\ forall w' after',
       query_zones w' = before ++ (e, z, t) :: after' ->
       select_skybox f g w' = select_skybox f g w.
Proof.
  intros Hq Hb He Hc. unfold select_skybox. cbn [fst snd]. split.
  - rewrite Hq, select_local_skybox_passes by exact Hb.
    rewrite select_local_skybox_match by assumption. reflexivity.
  - intros w' after' Hq'. rewrite Hq, Hq'.
    rewrite !select_local_skybox_passes by exact Hb.
    rewrite !select_local_skybox_match by assumption. reflexivity.
Qed.

(** The factor of the selection.  For the zone the selection stops at: with a
    fade distance [D > 0] the factor is the distance the code computes
    ([zone_edge_distance], of the reflected offset) over [D], clamped to
    [0, 1]; with a fade distance that is 0 or negative the factor is 1.  When
    the selection stops at no zone, the local skybox is the global one and the
    factor is 0. *)
Lemma skybox_blend_factor (f : Frame) (g : GuiViewport3D) (w : World) :
  (forall before after e z t,
     query_zones w = before ++ (e, z, t) :: after ->
     Forall (passed_over (camera_position g)) before ->
     is_empty (skybox z) = false ->
     zone_passes (camera_position g) z t = true ->
     let factor := snd (snd (select_skybox f g w)) in
     (0 < skybox_fade_distance z ->
        factor = clamp (zone_edge_distance (camera_position g) z t
                        / skybox_fade_distance z) 0 1
        /\ 0 <= factor <= 1)
     /\ (skybox_fade_distance z <= 0 -> factor = 1))
  /\ (Forall (passed_over (camera_position g)) (query_zones w) ->
      snd (select_skybox f g w) = (fst (select_skybox f g w), 0)).
Proof.
  split.
  - intros before after e z t Hq Hb He Hc. cbv zeta.
    unfold select_skybox. cbn [fst snd].
    rewrite Hq, select_local_skybox_passes by exact Hb.
    rewrite select_local_skybox_match by assumption. cbn [snd].
    split; intros HD.
    + apply Rleb_false in HD. rewrite HD.
      split; [reflexivity|]. apply clamp_range; lra.
    + apply Rleb_true in HD. rewrite HD. reflexivity.
  - intros Hb. unfold select_skybox. cbn [fst snd].
    rewrite <- (app_nil_r (query_zones w)).
    rewrite select_local_skybox_passes by exact Hb. reflexivity.
Qed.

(** ** Engine particles *)

Lemma emits_spec (elapsed : R) (e : Entity) :
  emit_engine_particles elapsed e
  = if emits elapsed e then
      (set_last_engine_particle_time elapsed e,
       match engine_emitter e, transform e, impulse_engine e with
       | Some ee, Some t, Some impulse =>
           map (spawn_engine_particle t (Rabs (actual impulse))) (emitters ee)
       | _, _, _ => []
       end)
    else (e, []).
Proof.
  unfold emit_engine_particles, emits.
  destruct (engine_emitter e) as [ee|], (transform e) as [t|],
    (impulse_engine e) as [i|]; try reflexivity.
  destruct (negb (Reqb (actual i) 0)); [|reflexivity].
  destruct (Rgtb (elapsed - last_engine_particle_time ee) (1 / 10)); reflexivity.
Qed.

(** Gapped times all follow the first bound. *)
Lemma gapped_above (lo : R) (times : list R) :
  gapped lo times -> Forall (fun t => t - lo > 1 / 10) times.
Proof.
  revert lo. induction times as [|t rest IH]; intros lo H; constructor.
  - apply H.
  - destruct H as [Ht Hrest]. specialize (IH t Hrest).
    eapply Forall_impl; [|exact IH]. cbv beta. intros; lra.
Qed.

(** Of times that are gapped, at most one falls in a window of a tenth of a
    second. *)
Lemma gapped_window (a lo : R) (times : list R) :
  gapped lo times -> (List.length (filter (in_window a) times) <= 1)%nat.
Proof.
  revert lo. induction times as [|t rest IH]; intros lo H; [cbn; lia|].
  destruct H as [_ Hrest]. cbn [filter].
  destruct (in_window a t) eqn:E; [|exact (IH t Hrest)].
  assert (Hnone : filter (in_window a) rest = []).
  { pose proof (gapped_above t rest Hrest) as Habove.
    unfold in_window in E. apply andb_true_iff in E. destruct E as [E1 _].
    apply Rleb_true in E1.
    clear -Habove E1. induction Habove as [|s rest Hs _ IH]; [reflexivity|].
    cbn [filter]. rewrite IH.
    replace (in_window a s) with false; [reflexivity|].
    symmetry. unfold in_window. apply andb_false_iff. right.
    apply Rleb_false. lra. }
  rewrite Hnone. cbn. lia.
Qed.

Lemma emission_times_gapped (frames : list (R * R)) :
  forall e ee, engine_emitter e = Some ee ->
  gapped (last_engine_particle_time ee) (emission_times frames e).
Proof.
  induction frames as [|[elapsed throttle] rest IH]; intros e ee He; [exact I|].
  cbn [emission_times]. rewrite emits_spec.
  assert (He1 : engine_emitter (set_throttle throttle e) = Some ee).
  { unfold set_throttle. destruct (impulse_engine e); exact He. }
  destruct (emits elapsed (set_throttle throttle e)) eqn:E; cbn [fst app].
  - split.
    + unfold emits in E. rewrite He1 in E.
      destruct (transform (set_throttle throttle e)); [|discriminate].
      destruct (impulse_engine (set_throttle throttle e)); [|discriminate].
      apply andb_true_iff in E. destruct E as [_ E]. apply Rgtb_true in E. exact E.
    + apply (IH _ (mkEngineEmitter elapsed (emitters ee))).
      unfold set_last_engine_particle_time. rewrite He1. reflexivity.
  - apply IH, He1.
Qed.

Lemma emission_times_no_emitter (frames : list (R * R)) :
  forall e, engine_emitter e = None -> emission_times frames e = [].
Proof.
  induction frames as [|[elapsed throttle] rest IH]; intros e He; [reflexivity|].
  assert (He1 : engine_emitter (set_throttle throttle e) = None).
  { unfold set_throttle. destruct (impulse_engine e); exact He. }
  cbn [emission_times]. rewrite emits_spec.
  unfold emits. rewrite He1. cbn [fst app]. apply IH, He1.
Qed.

Lemma emission_times_window (frames : list (R * R)) (e : Entity) (a : R) :
  (List.length (filter (in_window a) (emission_times frames e)) <= 1)%nat.
Proof.
  destruct (engine_emitter e) as [ee|] eqn:He.
  - eapply gapped_window, emission_times_gapped, He.
  - rewrite (emission_times_no_emitter frames e He). cbn. lia.
Qed.

Lemma emission_times_idle (frames : list (R * R)) :
  forall e, Forall (fun frame => snd frame = 0) frames -> emission_times frames e = [].
Proof.
  induction frames as [|[elapsed throttle] rest IH]; intros e H; [reflexivity|].
  inversion H as [|x l Hz Hrest]; subst. cbn [snd] in Hz. subst throttle.
  cbn [emission_times]. rewrite emits_spec.
  assert (E : emits elapsed (set_throttle 0 e) = false).
  { unfold emits, set_throttle.
    destruct (impulse_engine e) as [i|] eqn:Ei;
      [cbn [engine_emitter transform impulse_engine]|rewrite Ei];
      destruct (engine_emitter e), (transform e); try reflexivity.
    cbn [actual]. replace (Reqb 0 0) with true; [reflexivity|].
    symmetry. apply Reqb_true. reflexivity. }
  rewrite E. cbn [fst app]. apply IH, Hrest.
Qed.

(** C7.  For an entity with an engine emitter, a transform and an impulse
    engine: at throttle 0 nothing is spawned and nothing changes, whatever the
    time; at another throttle, when more than a tenth of a second has passed
    since the last emission, one particle is spawned per emitter point, its end
    position its start position, its scale the scale of the emitter times the
    absolute throttle, its life time 5, and the time of the last emission
    becomes the time of the frame; otherwise nothing is spawned.  Over any
    sequence of frames, at most one emission of the entity falls in a window of
    a tenth of a second. *)
Theorem engine_particle_emission (elapsed : R) (e : Entity)
    (ee : EngineEmitter) (t : Transform) (impulse : ImpulseEngine) :
  engine_emitter e = Some ee -> transform e = Some t -> impulse_engine e = Some impulse ->
  (actual impulse = 0 -> emit_engine_particles elapsed e = (e, []))
  /\ (actual impulse <> 0 ->
      (elapsed - last_engine_particle_time ee > 1 / 10 ->
         let '(e', spawned) := emit_engine_particles elapsed e in
         Forall2 (fun ed event =>
                    exists p, event = ParticleSpawn p p (emitter_color ed) (emitter_color ed)
                                        (emitter_scale ed * Rabs (actual impulse)) 0 5)
           (emitters ee) spawned
         /\ engine_emitter e' = Some (mkEngineEmitter elapsed (emitters ee)))
      /\ (elapsed - last_engine_particle_time ee <= 1 / 10 ->
          emit_engine_particles elapsed e = (e, [])))
  /\ (forall frames, Forall (fun frame => snd frame = 0) frames ->
        emission_times frames e = [])
  /\ (forall frames a,
        (List.length (filter (in_window a) (emission_times frames e)) <= 1)%nat).
Proof.
  intros He Ht Hi. split; [|split; [|split]].
  - intros Hz. unfold emit_engine_particles. rewrite He, Ht, Hi.
    apply Reqb_true in Hz. rewrite Hz. reflexivity.
  - intros Hnz. apply Reqb_false in Hnz. split.
    + intros Hgt. apply Rgtb_true in Hgt.
      unfold emit_engine_particles. rewrite He, Ht, Hi, Hnz, Hgt. cbn [negb]. split.
      * clear. induction (emitters ee) as [|ed l IH]; constructor; [|exact IH].
        eexists. reflexivity.
      * unfold set_last_engine_particle_time. rewrite He. reflexivity.
    + intros Hle. apply Rgtb_false in Hle.
      unfold emit_engine_particles. rewrite He, Ht, Hi, Hnz, Hle. reflexivity.
  - intros frames. apply emission_times_idle.
  - intros frames a. apply emission_times_window.
Qed.

(** ** Callsigns *)

Lemma draw_callsign_label (f : Frame) (g : GuiViewport3D) (e : Entity)
    (cs : CallSign) (t : Transform) :
  call_sign e = Some cs -> transform e = Some t ->
  is_entity e (my_spaceship f) = false ->
  draw_callsign f g e
  = callsign_label (callsign cs) (fst (worldToScreen (renderer f) (callsign_anchor e t) g)).
Proof.
  intros Hc Ht Hs. unfold draw_callsign. rewrite Hc, Ht, Hs. reflexivity.
Qed.

(** C10.  The world point a callsign is projected from is the position of the
    entity, raised to its radius: the first component of the size of its
    physics when it has physics, 300 otherwise. *)
Theorem callsign_projected_above (f : Frame) (g : GuiViewport3D) (e : Entity)
    (cs : CallSign) (t : Transform) :
  call_sign e = Some cs -> transform e = Some t ->
  is_entity e (my_spaceship f) = false ->
  exists world,
    draw_callsign f g e
    = callsign_label (callsign cs) (fst (worldToScreen (renderer f) world g))
    /\ x3 world = x2 (getPosition t)
    /\ y3 world = y2 (getPosition t)
    /\ z3 world = match physics e with
                  | Some p => x2 (getSize p)
                  | None => 300
                  end.
Proof.
  intros Hc Ht Hs. exists (callsign_anchor e t). split.
  - apply draw_callsign_label; assumption.
  - unfold callsign_anchor. repeat split.
Qed.

Lemma u8_of_float_floor (r : R) :
  0 <= r -> IZR (u8_of_float r) <= r < IZR (u8_of_float r) + 1.
Proof.
  intros H. unfold u8_of_float. apply Rleb_true in H. rewrite H.
  pose proof (base_Int_part r). lra.
Qed.

Lemma u8_of_float_IZR (n : Z) : (0 <= n)%Z -> u8_of_float (IZR n) = n.
Proof.
  intros H. unfold u8_of_float.
  replace (Rleb 0 (IZR n)) with true
    by (symmetry; apply Rleb_true; apply (IZR_le 0 n H)).
  symmetry. apply Int_part_spec. lra.
Qed.

(** C6, as the code has it.  A callsign whose projected depth is negative or
    above 10000 is not drawn.  Otherwise it is drawn with text size
    [20 * (1 - depth / 10000)] and, the colour being of 8-bit channels, with
    alpha the integer part of [128 * (1 - depth / 10000)]: 128 at depth 0 and 0
    at depth 10000. *)
Theorem callsign_fade (f : Frame) (g : GuiViewport3D) (e : Entity)
    (cs : CallSign) (t : Transform) :
  call_sign e = Some cs -> transform e = Some t ->
  is_entity e (my_spaceship f) = false ->
  let p := fst (worldToScreen (renderer f) (callsign_anchor e t) g) in
  let depth := z3 p in
  let fade := 1 - depth / 10000 in
  (depth < 0 \/ depth > 10000 -> draw_callsign f g e = [])
  /\ (0 <= depth <= 10000 ->
      draw_callsign f g e
      = [DrawText (mkRect (mkvec2 (x3 p) (y3 p)) (mkvec2 0 0)) (callsign cs)
           (20 * fade) (mku8vec4 255 255 255 (u8_of_float (128 * fade)))]
      /\ IZR (u8_of_float (128 * fade)) <= 128 * fade < IZR (u8_of_float (128 * fade)) + 1
      /\ (depth = 0 -> u8_of_float (128 * fade) = 128%Z)
      /\ (depth = 10000 -> u8_of_float (128 * fade) = 0%Z)).
Proof.
  intros Hc Ht Hs. cbv zeta.
  rewrite (draw_callsign_label f g e cs t Hc Ht Hs).
  generalize (fst (worldToScreen (renderer f) (callsign_anchor e t) g)).
  intros [px py pz]. cbv [z3 x3 y3]. unfold callsign_label. cbv [z3 x3 y3].
  split.
  - intros [H|H].
    + apply Rltb_true in H. rewrite H. reflexivity.
    + destruct (Rltb pz 0); [reflexivity|].
      apply Rgtb_true in H. rewrite H. reflexivity.
  - intros [H0 H1].
    replace (Rltb pz 0) with false by (symmetry; apply Rltb_false; lra).
    replace (Rgtb pz 10000) with false by (symmetry; apply Rgtb_false; lra).
    split; [reflexivity|]. split; [apply u8_of_float_floor; lra|]. split; intros ->.
    + replace (128 * (1 - 0 / 10000)) with (IZR 128) by field.
      apply u8_of_float_IZR. lia.
    + replace (128 * (1 - 10000 / 10000)) with (IZR 0) by field.
      apply u8_of_float_IZR. lia.
Qed.

(** The example contact is 100 units ahead of the example camera. *)
Lemma example_contact_depth :
  z3 (fst (worldToScreen (renderer example_frame)
             (callsign_anchor example_contact example_contact_transform)
             (camera_matrices 60 (example_camera 0 0)))) = 100.
Proof.
  change (fst (worldToScreen ?r ?w ?g)) with (project r g w).
  rewrite worldToScreen_depth, example_camera_forward.
  cbv [callsign_anchor example_contact example_contact_transform physics
       getPosition example_camera camera_position sub3 dot3 x2 y2 x3 y3 z3].
  ring.
Qed.

(** C6, as stated, fails.  A contact at depth 100 is drawn with alpha 126,
    which is not [128 * (1 - 100 / 10000)]. *)
Lemma callsign_alpha_counterexample :
  let g := camera_matrices 60 (example_camera 0 0) in
  let depth := z3 (fst (worldToScreen (renderer example_frame)
                          (callsign_anchor example_contact example_contact_transform) g)) in
  depth = 100
  /\ exists r font_size,
       draw_callsign example_frame g example_contact
       = [DrawText r "CV1" font_size (mku8vec4 255 255 255 126)]
       /\ IZR 126 <> 128 * (1 - depth / 10000).
Proof.
  cbv zeta.
  pose proof example_contact_depth as Hd.
  split; [exact Hd|].
  rewrite (draw_callsign_label example_frame _ example_contact
             (mkCallSign "CV1") example_contact_transform eq_refl eq_refl eq_refl).
  revert Hd.
  generalize (fst (worldToScreen (renderer example_frame)
                     (callsign_anchor example_contact example_contact_transform)
                     (camera_matrices 60 (example_camera 0 0)))).
  intros [px py pz]. cbv [z3]. intros ->.
  unfold callsign_label. cbv [x3 y3 z3 callsign].
  replace (Rltb 100 0) with false by (symmetry; apply Rltb_false; lra).
  replace (Rgtb 100 10000) with false by (symmetry; apply Rgtb_false; lra).
  assert (Ha : u8_of_float (128 * (1 - 100 / 10000)) = 126%Z).
  { unfold u8_of_float.
    replace (Rleb 0 (128 * (1 - 100 / 10000))) with true
      by (symmetry; apply Rleb_true; lra).
    symmetry. apply Int_part_spec. lra. }
  rewrite Ha. do 2 eexists. split; [reflexivity|lra].
Qed.

(** ** The frame *)

Lemma head_app (a : Event) (events more : list Event) :
  (exists body, events = a :: body) -> exists body, events ++ more = a :: body.
Proof. intros [body ->]. exists (body ++ more). reflexivity. Qed.

(** C9.  When the rectangle of the widget has width 0 the frame is skipped: no
    call is made and the machine is left as it was.  With any other width the
    frame runs from its first call, [renderer.finish()], to its last, the
    viewport reset of line 463: there is no other way out. *)
Theorem onDraw_zero_width (f : Frame) (m : Machine) :
  (x2 (size (rect (self m))) = 0 -> onDraw f m = (m, []))
  /\ (x2 (size (rect (self m))) <> 0 ->
      exists body, snd (onDraw f m) = RendererFinish :: body ++ [end_frame f]).
Proof.
  split; intros H; unfold onDraw.
  - apply Reqb_true in H. rewrite H. reflexivity.
  - apply Reqb_false in H. rewrite H.
    destruct (draw_starbox f _ (world m) (skybox_textures m)) as [cache starbox].
    destruct (engine_particles (elapsed_time f) (world m)) as [w particles].
    match goal with
    | |- context [if ?c then draw_spacedust ?a ?b ?d ?e ?h ?i else ?z] =>
        destruct (if c then draw_spacedust a b d e h i else z)
          as [[[dust buffer] r] spacedust]
    end.
    cbn [snd]. rewrite !app_assoc.
    match goal with
    | |- exists body, ?events ++ [end_frame f] = _ =>
        assert (Hhead : exists body, events = RendererFinish :: body)
    end.
    { repeat apply head_app. unfold begin_frame. eexists. reflexivity. }
    destruct Hhead as [body ->]. exists body. reflexivity.
Qed.

(** * Further properties *)

(** ** The camera *)

Lemma sin_cos_1 (a : R) : cos a * cos a + sin a * sin a = 1.
Proof. pose proof (sin2_cos2 a) as H. unfold Rsqr in H. lra. Qed.

(** X1.  The view transform of a frame is a rigid motion that takes the camera
    to the origin: it keeps the distance between any two world points, and the
    fourth coordinate at 1. *)
Theorem view_is_rigid (fov : R) (g : GuiViewport3D) (p q : vec3) :
  let P := to_camera fov g p in
  let Q := to_camera fov g q in
  (x4 P - x4 Q) * (x4 P - x4 Q) + (y4 P - y4 Q) * (y4 P - y4 Q)
  + (z4 P - z4 Q) * (z4 P - z4 Q) = length2 (sub3 p q)
  /\ w4 P = 1
  /\ to_camera fov g (camera_position g) = mkvec4 0 0 0 1.
Proof.
  cbv zeta. unfold to_camera. rewrite !view_position.
  pose proof (sin_cos_1 (radians (camera_yaw g))) as Hy.
  pose proof (sin_cos_1 (radians (camera_pitch g))) as Hp.
  unfold camera_forward.
  revert Hy Hp.
  generalize (cos (radians (camera_yaw g))) (sin (radians (camera_yaw g)))
             (cos (radians (camera_pitch g))) (sin (radians (camera_pitch g))).
  intros cy sy cp sp Hy Hp.
  destruct p as [px py pz], q as [qx qy qz], (camera_position g) as [cx cy' cz].
  cbv [sub3 dot3 length2 x3 y3 z3 x4 y4 z4 w4].
  split; [|split; [reflexivity|apply vec4_eq; ring]].
  set (dx := px - qx). set (dy := py - qy). set (dz := pz - qz).
  transitivity ((- sy * dx + cy * dy) * (- sy * dx + cy * dy)
                + (sp * sp + cp * cp)
                  * ((cy * dx + sy * dy) * (cy * dx + sy * dy) + dz * dz));
    [unfold dx, dy, dz; ring|].
  replace (sp * sp + cp * cp) with 1 by lra.
  transitivity ((cy * cy + sy * sy) * (dx * dx + dy * dy) + dz * dz); [ring|].
  rewrite Hy. ring.
Qed.

Lemma to_camera_depth (fov : R) (g : GuiViewport3D) (world : vec3) :
  z4 (to_camera fov g world) = - depth_of g world /\ w4 (to_camera fov g world) = 1.
Proof. unfold to_camera, depth_of. rewrite view_position. split; reflexivity. Qed.

Lemma project_camera (r : RenderTarget) (fov : R) (g : GuiViewport3D) (world : vec3) :
  let V := to_camera fov g world in
  let aspect := x2 (size (rect g)) / y2 (size (rect g)) in
  let t := tan (radians fov / 2) in
  project r (camera_matrices fov g) world
  = mkvec3 (x2 (position (rect g))
            + x2 (size (rect g)) * ((1 / (aspect * t) * x4 V / - z4 V + 1) / 2))
           (y2 (position (rect g))
            + y2 (size (rect g)) * ((1 - 1 / t * y4 V / - z4 V) / 2))
           (- z4 V).
Proof.
  cbv zeta. rewrite project_spec. unfold spec_worldToScreen, to_camera.
  rewrite clip_position.
  destruct (camera_matrices_fields fov g) as (-> & _).
  reflexivity.
Qed.

(** X2.  With the projection of a frame, the [w] a point is divided by is its
    depth before the camera; the Z after the division runs from -1 on the near
    plane (depth 1) to 1 on the far plane (depth 25000) and stays within
    [-1, 1] between them. *)
Theorem projection_depth_range (fov : R) (g : GuiViewport3D) (world : vec3) :
  let d := depth_of g world in
  let camera := camera_matrices fov g in
  w4 (mulmv (projection_matrix camera) (to_camera fov g world)) = d
  /\ (d <> 0 -> ndc_z camera world = (25001 * d - 50000) / (24999 * d))
  /\ (d = 1 -> ndc_z camera world = - 1)
  /\ (d = 25000 -> ndc_z camera world = 1)
  /\ (1 <= d <= 25000 -> - 1 <= ndc_z camera world <= 1).
Proof.
  cbv zeta.
  assert (F : depth_of g world <> 0 ->
              ndc_z (camera_matrices fov g) world
              = (25001 * depth_of g world - 50000) / (24999 * depth_of g world)).
  { intros Hd. unfold ndc_z. fold (to_camera fov g world).
    rewrite clip_position.
    destruct (to_camera_depth fov g world) as [Hz Hw].
    rewrite Hz, Hw. cbv [z4 w4]. field. exact Hd. }
  split; [|split; [exact F|split; [|split]]].
  - rewrite clip_position.
    destruct (to_camera_depth fov g world) as [-> _]. cbv [w4]. ring.
  - intros Hd. rewrite F by lra. rewrite Hd. field.
  - intros Hd. rewrite F by lra. rewrite Hd. field.
  - intros Hd. rewrite F by lra.
    set (d := depth_of g world) in *.
    assert (Hn : (25001 * d - 50000) / (24999 * d) * (24999 * d) = 25001 * d - 50000)
      by (field; lra).
    set (n := (25001 * d - 50000) / (24999 * d)) in *.
    split; nra.
Qed.

Lemma to_camera_ray (fov : R) (g : GuiViewport3D) (k : R) (world : vec3) :
  let V := to_camera fov g world in
  to_camera fov g (along_ray g k world) = mkvec4 (k * x4 V) (k * y4 V) (k * z4 V) 1.
Proof.
  cbv zeta. unfold to_camera, along_ray. rewrite !view_position.
  unfold camera_forward.
  generalize (cos (radians (camera_yaw g))) (sin (radians (camera_yaw g)))
             (cos (radians (camera_pitch g))) (sin (radians (camera_pitch g))).
  intros cy sy cp sp.
  destruct world as [wx wy wz], (camera_position g) as [cx cy' cz].
  cbv [add3 scale3 sub3 dot3 x3 y3 z3 x4 y4 z4]. apply vec4_eq; ring.
Qed.

(** X3.  World points on one ray from the camera are projected on one place of
    the screen: moving a point to [k] times its offset from the camera keeps
    its screen X and Y and multiplies its depth by [k]. *)
Theorem projection_along_ray (r : RenderTarget) (fov : R) (g : GuiViewport3D)
    (k : R) (world : vec3) :
  k <> 0 -> depth_of g world <> 0 ->
  let camera := camera_matrices fov g in
  let p := project r camera world in
  let p' := project r camera (along_ray g k world) in
  x3 p' = x3 p /\ y3 p' = y3 p /\ z3 p' = k * z3 p.
Proof.
  intros Hk Hd. cbv zeta. rewrite !project_camera. cbv zeta.
  rewrite to_camera_ray. cbv zeta.
  destruct (to_camera_depth fov g world) as [Hz _].
  destruct (to_camera fov g world) as [vx vy vz vw].
  cbv [x4 y4 z4 x3 y3 z3] in *.
  assert (Hvz : vz <> 0) by (intros ->; apply Hd; lra).
  generalize (1 / (x2 (size (rect g)) / y2 (size (rect g)) * tan (radians fov / 2)))
             (1 / tan (radians fov / 2)).
  intros k1 k2. repeat split; field; split; assumption.
Qed.

Lemma to_camera_axis (fov : R) (g : GuiViewport3D) (d : R) :
  to_camera fov g (add3 (camera_position g) (scale3 d (camera_forward g)))
  = mkvec4 0 0 (- d) 1.
Proof.
  unfold to_camera. rewrite view_position. unfold camera_forward.
  pose proof (sin_cos_1 (radians (camera_yaw g))) as Hy.
  pose proof (sin_cos_1 (radians (camera_pitch g))) as Hp.
  revert Hy Hp.
  generalize (cos (radians (camera_yaw g))) (sin (radians (camera_yaw g)))
             (cos (radians (camera_pitch g))) (sin (radians (camera_pitch g))).
  intros cy sy cp sp Hy Hp.
  destruct (camera_position g) as [cx cy' cz].
  cbv [add3 scale3 sub3 dot3 x3 y3 z3]. apply vec4_eq.
  - ring.
  - transitivity (d * sp * cp * (cy * cy + sy * sy) - d * cp * sp); [ring|].
    rewrite Hy. ring.
  - transitivity (- (d * (cp * cp * (cy * cy + sy * sy) + sp * sp))); [ring|].
    rewrite Hy. replace (cp * cp * 1 + sp * sp) with 1 by lra. ring.
  - reflexivity.
Qed.

(** X4.  For a field of view strictly between 0 and 180 degrees and a
    rectangle whose width and height are not 0, the factors of the projection
    are finite (the tangent of half the field of view is positive), and,
    whatever the position, yaw and pitch of the camera, a point on its axis, at
    a distance [d] other than 0 along the direction it looks in, is projected
    on the centre of the viewport, at depth [d]. *)
Theorem projection_of_axis (r : RenderTarget) (fov : R) (g : GuiViewport3D) (d : R) :
  0 < fov < 180 ->
  x2 (size (rect g)) <> 0 -> y2 (size (rect g)) <> 0 ->
  d <> 0 ->
  0 < tan (radians fov / 2)
  /\ project r (camera_matrices fov g)
       (add3 (camera_position g) (scale3 d (camera_forward g)))
     = mkvec3 (x2 (position (rect g)) + x2 (size (rect g)) / 2)
              (y2 (position (rect g)) + y2 (size (rect g)) / 2)
              d.
Proof.
  intros Hfov Hwidth Hheight Hd. split.
  - pose proof PI_RGT_0 as Hpi. unfold radians.
    apply tan_gt_0; nra.
  - rewrite project_camera. cbv zeta. rewrite to_camera_axis.
    cbv [x4 y4 z4].
    generalize (1 / (x2 (size (rect g)) / y2 (size (rect g)) * tan (radians fov / 2)))
               (1 / tan (radians fov / 2)).
    intros k1 k2. apply vec3_eq; field; exact Hd.
Qed.

(** X5.  [worldToScreen] maps the square [-1, 1] of the divided X and Y onto
    the rectangle of the viewport, top for bottom: for a rectangle of positive
    size the screen point is within the rectangle exactly when the divided
    coordinate is within [-1, 1]; the divided Y of 1 lands on the top edge and
    that of -1 on the bottom edge. *)
Theorem worldToScreen_in_viewport (r : RenderTarget) (g : GuiViewport3D) (world : vec3) :
  0 < x2 (size (rect g)) -> 0 < y2 (size (rect g)) ->
  let p := fst (worldToScreen r world g) in
  let left := x2 (position (rect g)) in
  let top := y2 (position (rect g)) in
  (left <= x3 p <= left + x2 (size (rect g)) <-> - 1 <= ndc_x g world <= 1)
  /\ (top <= y3 p <= top + y2 (size (rect g)) <-> - 1 <= ndc_y g world <= 1)
  /\ (ndc_y g world = 1 -> y3 p = top)
  /\ (ndc_y g world = - 1 -> y3 p = top + y2 (size (rect g)))
  /\ (ndc_x g world = - 1 -> x3 p = left)
  /\ (ndc_x g world = 1 -> x3 p = left + x2 (size (rect g))).
Proof.
  intros Hx Hy. cbv zeta.
  change (fst (worldToScreen r world g)) with (project r g world).
  rewrite project_spec. unfold spec_worldToScreen, ndc_x, ndc_y. cbv [x3 y3].
  set (nx := x4 _ / w4 _). set (ny := y4 _ / w4 _).
  set (sx := x2 (size (rect g))) in *. set (sy := y2 (size (rect g))) in *.
  repeat split; intros; try nra.
  all: subst; field.
Qed.

(** X6.  The frame derives both matrices anew from the field of view, the
    rectangle and the camera: whatever matrices the widget held before do not
    count, and the rectangle, the camera and the switches are left alone. *)
Theorem onDraw_matrices (f : Frame) (m : Machine) (pm vm : mat4) :
  x2 (size (rect (self m))) <> 0 ->
  let g := self (fst (onDraw f m)) in
  g = camera_matrices (main_screen_camera_fov f) (self m)
  /\ camera_matrices (main_screen_camera_fov f)
       (set_view_matrix vm (set_projection_matrix pm (self m))) = g
  /\ rect g = rect (self m)
  /\ camera_position g = camera_position (self m)
  /\ camera_yaw g = camera_yaw (self m)
  /\ camera_pitch g = camera_pitch (self m)
  /\ show_callsigns g = show_callsigns (self m)
  /\ show_headings g = show_headings (self m)
  /\ show_spacedust g = show_spacedust (self m).
Proof.
  intros Hw. cbv zeta.
  assert (E : self (fst (onDraw f m))
              = camera_matrices (main_screen_camera_fov f) (self m)).
  { unfold onDraw. apply Reqb_false in Hw. rewrite Hw.
    destruct (draw_starbox f _ (world m) (skybox_textures m)) as [cache starbox].
    destruct (engine_particles (elapsed_time f) (world m)) as [w particles].
    match goal with
    | |- context [if ?c then draw_spacedust ?a ?b ?d ?e ?h ?i else ?z] =>
        destruct (if c then draw_spacedust a b d e h i else z)
          as [[[dust buffer] r] spacedust]
    end.
    reflexivity. }
  rewrite E. split; [reflexivity|]. split.
  - destruct (self m); reflexivity.
  - destruct (camera_matrices_fields (main_screen_camera_fov f) (self m))
      as (H1 & H2 & H3 & H4 & H5 & H6 & H7).
    repeat split; assumption.
Qed.

(** ** The constructor and the dust over the frames *)

Lemma signs_ind (P : list R -> Prop) :
  P [] -> (forall s, P [s]) ->
  (forall s0 s1 rest, P rest -> P (s0 :: s1 :: rest)) ->
  forall signs, P signs.
Proof.
  intros H0 H1 H2 signs.
  assert (H : P signs /\ forall s, P (s :: signs)).
  { induction signs as [|q rest [IH1 IH2]]; split; auto. }
  apply H.
Qed.

(** X7.  The constructor leaves no sign indeterminate: whatever the array held,
    after the loop the sign of the first end of each of the
    [spacedust_particle_count] pairs is -1 and that of its second end is 1, and
    the array has kept its length. *)
Theorem fill_signs_alternate (signs : list R) (k : nat) :
  List.length signs = (2 * spacedust_particle_count)%nat ->
  (k < spacedust_particle_count)%nat ->
  List.length (fill_signs signs) = List.length signs
  /\ nth (2 * k) (fill_signs signs) 0 = - 1
  /\ nth (2 * k + 1) (fill_signs signs) 0 = 1.
Proof.
  generalize spacedust_particle_count as n. revert k.
  induction signs as [| s | s0 s1 rest IH] using signs_ind; intros k n Hl Hk.
  - cbn in Hl. lia.
  - cbn in Hl. lia.
  - cbn [fill_signs List.length] in *.
    destruct n as [|n]; [lia|].
    destruct k as [|k].
    + destruct (Nat.eq_dec n 0) as [->|Hn].
      * destruct rest; [|cbn in Hl; lia]. repeat split.
      * destruct (IH 0%nat n) as (IHl & _); [lia|lia|].
        rewrite IHl. repeat split.
    + destruct (IH k n) as (IHl & IH0 & IH1); [lia|lia|].
      rewrite IHl. split; [reflexivity|].
      replace (2 * S k)%nat with (S (S (2 * k))) by lia.
      replace (S (S (2 * k)) + 1)%nat with (S (S (2 * k + 1))) by lia.
      cbn [nth]. split; assumption.
Qed.

Lemma update_space_dust_length (c : vec3) (dust : list vec3) :
  forall u g, List.length (fst (fst (update_space_dust c dust u g))) = List.length dust.
Proof.
  induction dust as [| p | p0 p1 rest IH] using pairs_ind; intros u g; try reflexivity.
  rewrite update_space_dust_pair.
  destruct (outside_shell c p0).
  - specialize (IH true (snd (respawn c g))).
    destruct (update_space_dust c rest true (snd (respawn c g))) as [[rest' u'] g'].
    cbn [fst List.length] in *. rewrite IH. reflexivity.
  - specialize (IH u g).
    destruct (update_space_dust c rest u g) as [[rest' u'] g'].
    cbn [fst List.length] in *. rewrite IH. reflexivity.
Qed.

Lemma update_space_dust_coincident (c : vec3) (dust : list vec3) :
  forall u g, coincident dust -> coincident (fst (fst (update_space_dust c dust u g))).
Proof.
  unfold coincident.
  induction dust as [| p | p0 p1 rest IH] using pairs_ind; intros u g H;
    try (cbv [update_space_dust pairs fst]; constructor).
  rewrite update_space_dust_pair. cbn [pairs] in H.
  inversion H as [|x l Hhead Hrest]; subst.
  destruct (outside_shell c p0).
  - specialize (IH true (snd (respawn c g)) Hrest).
    destruct (update_space_dust c rest true (snd (respawn c g))) as [[rest' u'] g'].
    cbn [fst pairs] in *. constructor; [reflexivity|exact IH].
  - specialize (IH u g Hrest).
    destruct (update_space_dust c rest u g) as [[rest' u'] g'].
    cbn [fst pairs] in *. constructor; [exact Hhead|exact IH].
Qed.

(** X8.  A pass over the dust neither adds nor drops a particle, and when the
    two ends of every pair were at one place before the pass they are at one
    place after it. *)
Theorem update_space_dust_keeps (c : vec3) (dust : list vec3) (u : bool) (g : Rng) :
  let dust' := fst (fst (update_space_dust c dust u g)) in
  List.length dust' = List.length dust
  /\ (coincident dust -> coincident dust').
Proof.
  cbv zeta. split.
  - apply update_space_dust_length.
  - apply update_space_dust_coincident.
Qed.

(** X9.  A pass draws three random numbers for each pair it respawns and none
    otherwise: the generator advances by three times the number of pairs whose
    first end was outside the shell. *)
Theorem update_space_dust_draws (c : vec3) (dust : list vec3) (u : bool) (g : Rng) :
  let g' := snd (update_space_dust c dust u g) in
  cursor g' = (cursor g + 3 * respawn_count c dust)%nat
  /\ draws g' = draws g.
Proof.
  cbv zeta. unfold respawn_count. revert u g.
  induction dust as [| p | p0 p1 rest IH] using pairs_ind; intros u g;
    try (cbn [update_space_dust pairs filter List.length snd]; split; [lia|reflexivity]).
  rewrite update_space_dust_pair. cbn [pairs filter fst].
  destruct (outside_shell c p0).
  - specialize (IH true (snd (respawn c g))).
    destruct (update_space_dust c rest true (snd (respawn c g))) as [[rest' u'] g'].
    cbn [snd List.length] in *. destruct IH as [IHc IHd].
    rewrite IHc, IHd, respawn_cursor, respawn_draws. split; [lia|reflexivity].
  - specialize (IH u g).
    destruct (update_space_dust c rest u g) as [[rest' u'] g'].
    cbn [snd] in *. exact IH.
Qed.

(** The dust, its buffer and the generator after a frame. *)
Lemma onDraw_dust (f : Frame) (m : Machine) :
  x2 (size (rect (self m))) <> 0 ->
  let g := camera_matrices (main_screen_camera_fov f) (self m) in
  let w := fst (engine_particles (elapsed_time f) (world m)) in
  let m' := fst (onDraw f m) in
  (space_dust m', spacedust_positions m', rng m')
  = if show_spacedust (self m) && is_valid (world m) (my_spaceship f)
    then fst (draw_spacedust f g w (space_dust m) (spacedust_positions m) (rng m))
    else (space_dust m, spacedust_positions m, rng m).
Proof.
  intros Hw. cbv zeta. unfold onDraw. apply Reqb_false in Hw. rewrite Hw.
  destruct (draw_starbox f _ (world m) (skybox_textures m)) as [cache starbox].
  pose proof (engine_particles_valid (elapsed_time f) (world m) (my_spaceship f)) as Hvalid.
  destruct (engine_particles (elapsed_time f) (world m)) as [w particles].
  cbn [fst] in *.
  destruct (camera_matrices_fields (main_screen_camera_fov f) (self m))
    as (_ & _ & _ & _ & _ & _ & ->).
  rewrite Hvalid.
  destruct (show_spacedust (self m) && is_valid (world m) (my_spaceship f)).
  - destruct (draw_spacedust f _ w (space_dust m) (spacedust_positions m) (rng m))
      as [[[dust buffer] r] spacedust].
    reflexivity.
  - reflexivity.
Qed.

Lemma onDraw_dust_invariant (f : Frame) (m : Machine) :
  dust_invariant m -> dust_invariant (fst (onDraw f m)).
Proof.
  intros (Hbuf & Hlen & Hco).
  destruct (Req_dec_T (x2 (size (rect (self m)))) 0) as [Hz|Hnz].
  - unfold onDraw. apply Reqb_true in Hz. rewrite Hz. cbn [fst].
    repeat split; assumption.
  - pose proof (onDraw_dust f m Hnz) as H. cbv zeta in H.
    unfold dust_invariant.
    destruct (show_spacedust (self m) && is_valid (world m) (my_spaceship f)).
    + set (g := camera_matrices (main_screen_camera_fov f) (self m)) in *.
      set (w := fst (engine_particles (elapsed_time f) (world m))) in *.
      pose proof (draw_spacedust_uploads f g w (space_dust m)
                    (spacedust_positions m) (rng m)) as Hup.
      cbv zeta in Hup. unfold draw_spacedust in H, Hup.
      pose proof (update_space_dust_length (dust_center_of f g w) (space_dust m)
                    false (rng m)) as Hl.
      pose proof (update_space_dust_coincident (dust_center_of f g w) (space_dust m)
                    false (rng m)) as Hc.
      destruct (update_space_dust (dust_center_of f g w) (space_dust m) false (rng m))
        as [[dust u] r].
      cbn [fst] in H, Hl, Hc.
      destruct Hup as (_ & Hb & Hsame).
      injection H as H1 H2 H3. rewrite H1, H2.
      split; [|split; [congruence|exact (Hc Hco)]].
      destruct u.
      * reflexivity.
      * destruct (respawns (dust_center_of f g w) (space_dust m)).
        -- exact Hb.
        -- rewrite (Hsame eq_refl). exact Hbuf.
    + injection H as H1 H2 H3. rewrite H1, H2. repeat split; assumption.
Qed.

Lemma run_invariant (P : Machine -> Prop) :
  (forall g w m, P m -> P (between_frames g w m)) ->
  (forall f m, P m -> P (fst (onDraw f m))) ->
  forall steps m, P m -> P (run steps m).
Proof.
  intros Hb Hf steps.
  induction steps as [|[[g w] f] rest IH]; intros m Hm; [exact Hm|].
  cbn [run]. apply IH, Hf, Hb, Hm.
Qed.

(** X10.  For a widget constructed while [space_dust] is as the process first
    made it (all zeros: no frame has respawned a pair yet), and the only one to
    draw: from the constructor on, through any run of its frames, whatever the
    game does to the widget and to the world between them, the positions in
    the dust buffer of the GPU are those of [space_dust], there are
    [2 * spacedust_particle_count] of them, and the two ends of every pair
    are at one place. *)
Theorem dust_buffer_in_step (steps : list (GuiViewport3D * World * Frame))
    (g : GuiViewport3D) (m : Machine) :
  space_dust_initial m ->
  dust_invariant (run steps (GuiViewport3D_constructor g m)).
Proof.
  intros Hinitial. apply run_invariant.
  - intros g' w' m' H. exact H.
  - apply onDraw_dust_invariant.
  - unfold dust_invariant, GuiViewport3D_constructor, zeroed_positions.
    cbn [spacedust_positions space_dust]. rewrite Hinitial.
    split; [reflexivity|]. split; [apply repeat_length|].
    unfold coincident. generalize spacedust_particle_count as n.
    induction n as [|n IH]; [constructor|].
    replace (2 * S n)%nat with (S (S (2 * n))) by lia.
    cbn [repeat pairs]. constructor; [reflexivity|exact IH].
Qed.

(** A widget constructed later, when [space_dust] has moved on, starts with a
    buffer that is not in step: its constructor zeroes the buffer and leaves
    [space_dust]. *)
Lemma constructor_out_of_step (g : GuiViewport3D) (m : Machine) :
  ~ space_dust_initial m ->
  ~ dust_invariant (GuiViewport3D_constructor g m).
Proof.
  intros Hmoved (Hbuffer & _). apply Hmoved. unfold space_dust_initial.
  symmetry. exact Hbuffer.
Qed.

(** ** The cubemaps *)

Lemma existsb_eqb_In (name : string) (cache : list string) :
  existsb (String.eqb name) cache = true <-> In name cache.
Proof.
  rewrite existsb_exists. split.
  - intros (x & Hx & E). apply String.eqb_eq in E. subst. exact Hx.
  - intros H. exists name. split; [exact H|apply String.eqb_refl].
Qed.

Lemma cubemap_spec (name : string) (cache : list string) :
  let '(cache', events) := cubemap name cache in
  In name cache'
  /\ cache' = rev (loads events) ++ cache
  /\ (loads events = [] <-> In name cache)
  /\ (forall n, In n (loads events) -> n = name /\ ~ In n cache)
  /\ (NoDup cache -> NoDup cache')
  /\ uploads events = [] /\ (List.length (loads events) <= 1)%nat.
Proof.
  unfold cubemap.
  destruct (existsb (String.eqb name) cache) eqn:E.
  - apply existsb_eqb_In in E. cbn [loads rev app List.length uploads].
    split; [exact E|]. split; [reflexivity|]. split; [split; auto|].
    split; [intros n []|]. split; [auto|]. split; [reflexivity|lia].
  - assert (Hn : ~ In name cache).
    { intros H. apply existsb_eqb_In in H. congruence. }
    cbn [loads rev app List.length uploads].
    split; [left; reflexivity|]. split; [reflexivity|].
    split; [split; [discriminate|contradiction]|].
    split; [intros n [<-|[]]; split; [reflexivity|exact Hn]|].
    split; [intros Hd; constructor; assumption|]. split; [reflexivity|lia].
Qed.

Lemma loads_app (a b : list Event) : loads (a ++ b) = loads a ++ loads b.
Proof.
  induction a as [|e a IH]; [reflexivity|].
  destruct e; cbn [app loads]; rewrite ?IH; reflexivity.
Qed.

Lemma draw_starbox_loads (f : Frame) (g : GuiViewport3D) (w : World) (cache : list string) :
  let global := fst (select_skybox f g w) in
  let local := fst (snd (select_skybox f g w)) in
  loads (snd (draw_starbox f g w cache))
  = loads (snd (cubemap global cache))
    ++ loads (snd (cubemap local (fst (cubemap global cache))))
  /\ fst (draw_starbox f g w cache)
     = fst (cubemap local (fst (cubemap global cache))).
Proof.
  cbv zeta. unfold draw_starbox.
  destruct (select_skybox f g w) as [n [l k]]. cbn [fst snd].
  destruct (cubemap n cache) as [c1 e1]. cbn [fst snd].
  destruct (cubemap l c1) as [c2 e2]. cbn [fst snd].
  split; [|reflexivity].
  rewrite !loads_app. cbn [loads app]. rewrite app_nil_r. reflexivity.
Qed.

Lemma draw_starbox_holds (f : Frame) (g : GuiViewport3D) (w : World)
    (cache : list string) :
  In (fst (select_skybox f g w)) (fst (draw_starbox f g w cache))
  /\ In (fst (snd (select_skybox f g w))) (fst (draw_starbox f g w cache)).
Proof.
  destruct (draw_starbox_loads f g w cache) as [_ ->].
  pose proof (cubemap_spec (fst (select_skybox f g w)) cache) as H1.
  destruct (cubemap (fst (select_skybox f g w)) cache) as [c1 e1].
  destruct H1 as (Hin1 & _). cbn [fst].
  pose proof (cubemap_spec (fst (snd (select_skybox f g w))) c1) as H2.
  destruct (cubemap (fst (snd (select_skybox f g w))) c1) as [c2 e2].
  destruct H2 as (Hin2 & Hc2 & _). cbn [fst].
  split; [|exact Hin2]. rewrite Hc2. apply in_or_app. right. exact Hin1.
Qed.

(** X11.  After the starbox pass the cubemaps of the global and of the local
    skybox are both in the cache; the cache has grown by exactly the cubemaps
    the pass loaded, each of them absent before and loaded once, and has lost
    none; a cache without duplicates stays without duplicates. *)
Theorem draw_starbox_cache (f : Frame) (g : GuiViewport3D) (w : World)
    (cache : list string) :
  let global := fst (select_skybox f g w) in
  let local := fst (snd (select_skybox f g w)) in
  let cache' := fst (draw_starbox f g w cache) in
  let loaded := loads (snd (draw_starbox f g w cache)) in
  In global cache' /\ In local cache'
  /\ cache' = rev loaded ++ cache
  /\ (forall n, In n loaded <-> (n = global \/ n = local) /\ ~ In n cache)
  /\ NoDup loaded
  /\ (NoDup cache -> NoDup cache').
Proof.
  cbv zeta.
  destruct (draw_starbox_loads f g w cache) as [-> ->].
  set (global := fst (select_skybox f g w)).
  set (local := fst (snd (select_skybox f g w))).
  pose proof (cubemap_spec global cache) as H1.
  destruct (cubemap global cache) as [c1 e1].
  destruct H1 as (Hin1 & Hc1 & Hz1 & Hl1 & Hd1 & _ & Hn1).
  pose proof (cubemap_spec local c1) as H2. cbn [fst snd].
  destruct (cubemap local c1) as [c2 e2].
  destruct H2 as (Hin2 & Hc2 & Hz2 & Hl2 & Hd2 & _ & Hn2). cbn [fst snd].
  assert (Hsub : forall n, In n c1 -> In n c2).
  { intros n Hn. rewrite Hc2. apply in_or_app. right. exact Hn. }
  split; [apply Hsub, Hin1|]. split; [exact Hin2|]. split.
  { rewrite Hc2, Hc1, rev_app_distr, app_assoc. reflexivity. }
  split; [|split].
  - intros n. rewrite in_app_iff. split.
    + intros [H|H].
      * destruct (Hl1 n H) as [-> Hn]. split; [left; reflexivity|exact Hn].
      * destruct (Hl2 n H) as [-> Hn]. split; [right; reflexivity|].
        intros Hc. apply Hn. rewrite Hc1. apply in_or_app. right. exact Hc.
    + intros [[->| ->] Hn].
      * left. destruct (loads e1) as [|x l] eqn:E.
        -- exfalso. apply Hn, Hz1. reflexivity.
        -- destruct (Hl1 x (or_introl eq_refl)) as [-> _]. left. reflexivity.
      * destruct (loads e2) as [|x l] eqn:E.
        -- left. assert (Hc : In local c1) by (apply Hz2; reflexivity).
           rewrite Hc1 in Hc. apply in_app_or in Hc. destruct Hc as [Hc|Hc];
             [|contradiction].
           apply in_rev in Hc. exact Hc.
        -- right. destruct (Hl2 x (or_introl eq_refl)) as [-> _]. left. reflexivity.
  - destruct (loads e1) as [|x [|y l]] eqn:E1; [| |cbn in Hn1; lia];
      (destruct (loads e2) as [|x' [|y' l']] eqn:E2; [| |cbn in Hn2; lia]);
      cbn [app].
    + constructor.
    + constructor; [intros []|constructor].
    + constructor; [intros []|constructor].
    + constructor; [|constructor; [intros []|constructor]].
      intros [Hx|[]].
      destruct (Hl2 x' (or_introl eq_refl)) as [_ Hn]. apply Hn.
      rewrite Hc1. cbn [rev app]. left. symmetry. exact Hx.
  - intros Hd. apply Hd2, Hd1, Hd.
Qed.

(** X12.  A starbox pass that finds the cache as the same pass left it loads
    nothing. *)
Theorem draw_starbox_cached (f : Frame) (g : GuiViewport3D) (w : World)
    (cache : list string) :
  let cache' := fst (draw_starbox f g w cache) in
  loads (snd (draw_starbox f g w cache')) = []
  /\ fst (draw_starbox f g w cache') = cache'.
Proof.
  cbv zeta.
  destruct (draw_starbox_holds f g w cache) as [Hg Hl].
  set (cache' := fst (draw_starbox f g w cache)) in *.
  destruct (draw_starbox_loads f g w cache') as [-> ->].
  set (global := fst (select_skybox f g w)) in *.
  set (local := fst (snd (select_skybox f g w))) in *.
  pose proof (cubemap_spec global cache') as H1.
  destruct (cubemap global cache') as [c1 e1].
  destruct H1 as (_ & Hc1 & Hz1 & _). cbn [fst snd].
  apply Hz1 in Hg. rewrite Hg in Hc1. cbn [rev app] in Hc1. subst c1.
  pose proof (cubemap_spec local cache') as H2.
  destruct (cubemap local cache') as [c2 e2].
  destruct H2 as (_ & Hc2 & Hz2 & _). cbn [fst snd].
  apply Hz2 in Hl. rewrite Hl in Hc2. cbn [rev app] in Hc2. subst c2.
  rewrite Hg, Hl. split; reflexivity.
Qed.

Lemma select_local_skybox_range (camera : vec3)
    (zones : list (Entity * Zone * Transform)) (found : string * R) :
  0 <= snd found <= 1 -> 0 <= snd (select_local_skybox camera zones found) <= 1.
Proof.
  intros H. induction zones as [|[[e z] t] rest IH]; [exact H|].
  cbn [select_local_skybox].
  destruct (is_empty (skybox z)); [exact IH|].
  destruct (insidePolygon _ _); [|exact IH].
  destruct (Rleb (skybox_fade_distance z) 0); cbn [snd]; [lra|].
  apply clamp_range. lra.
Qed.

(** X13.  Whatever the zones, their outlines and their fade distances, the
    factor the starbox blends with lies between 0 and 1. *)
Theorem skybox_factor_range (f : Frame) (g : GuiViewport3D) (w : World) :
  0 <= snd (snd (select_skybox f g w)) <= 1.
Proof.
  unfold select_skybox. cbn [snd].
  apply select_local_skybox_range. cbn [snd]. lra.
Qed.

(** ** The engines *)

Lemma emit_engine_particles_same (elapsed : R) (e : Entity) :
  same_but_emission elapsed e (fst (emit_engine_particles elapsed e)).
Proof.
  unfold same_but_emission.
  destruct (emit_engine_particles_fields elapsed e)
    as (H1 & H2 & H3 & H4 & H5 & H6 & H7).
  cbv zeta in *.
  repeat (split; [assumption|]).
  clear. unfold emit_engine_particles.
  destruct (engine_emitter e) as [ee|] eqn:He;
    [|cbn [fst]; split; [reflexivity|left; reflexivity]].
  destruct (transform e) as [t|];
    [|cbn [fst]; split; [reflexivity|left; reflexivity]].
  destruct (impulse_engine e) as [i|];
    [|cbn [fst]; split; [reflexivity|left; reflexivity]].
  destruct (negb (Reqb (actual i) 0));
    [|cbn [fst]; split; [reflexivity|left; reflexivity]].
  destruct (Rgtb (elapsed - last_engine_particle_time ee) (1 / 10)) eqn:E;
    [|cbn [fst]; split; [reflexivity|left; reflexivity]].
  cbn [fst]. unfold set_last_engine_particle_time, emitter_points, last_emission.
  rewrite He. cbn [engine_emitter emitters last_engine_particle_time].
  split; [reflexivity|]. right. split; [reflexivity|].
  apply Rgtb_true in E. lra.
Qed.

(** X14.  A frame changes nothing in the world but the time of the last
    emission of entities that emit: it keeps the entities in their order, with
    their handle, transform, physics, zone, impulse engine, callsign, target
    and emitter points, and a time of last emission it changes it sets to the
    time of the frame, which is later. *)
Theorem onDraw_world (f : Frame) (m : Machine) :
  Forall2 (same_but_emission (elapsed_time f)) (world m) (world (fst (onDraw f m))).
Proof.
  assert (Hrefl : forall w, Forall2 (same_but_emission (elapsed_time f)) w w).
  { induction w as [|e w IH]; constructor; [|exact IH].
    unfold same_but_emission. repeat split; try reflexivity. left. reflexivity. }
  unfold onDraw.
  destruct (Reqb (x2 (size (rect (self m)))) 0); [apply Hrefl|].
  destruct (draw_starbox f _ (world m) (skybox_textures m)) as [cache starbox].
  pose proof (engine_particles_map (elapsed_time f) (world m)) as Hmap.
  destruct (engine_particles (elapsed_time f) (world m)) as [w particles].
  match goal with
  | |- context [if ?c then draw_spacedust ?a ?b ?d ?e ?h ?i else ?z] =>
      destruct (if c then draw_spacedust a b d e h i else z)
        as [[[dust buffer] r] spacedust]
  end.
  cbn [fst world] in *. subst w. clear.
  induction (world m) as [|e w IH]; constructor; [|exact IH].
  apply emit_engine_particles_same.
Qed.

Lemma emit_engine_particles_again (elapsed : R) (e : Entity) :
  emit_engine_particles elapsed (fst (emit_engine_particles elapsed e))
  = (fst (emit_engine_particles elapsed e), []).
Proof.
  rewrite (emits_spec elapsed e).
  destruct (emits elapsed e) eqn:E; cbn [fst].
  - rewrite emits_spec.
    replace (emits elapsed (set_last_engine_particle_time elapsed e)) with false;
      [reflexivity|].
    symmetry. unfold emits, set_last_engine_particle_time.
    destruct (engine_emitter e) as [ee|] eqn:He.
    + cbn [engine_emitter transform impulse_engine last_engine_particle_time].
      destruct (transform e); [|reflexivity].
      destruct (impulse_engine e); [|reflexivity].
      apply andb_false_iff. right. apply Rgtb_false. lra.
    + rewrite He. reflexivity.
  - rewrite emits_spec, E. reflexivity.
Qed.

(** X15.  The engine pass run again at the time it has just run at spawns no
    particle and changes nothing: each entity emits at most once per instant. *)
Theorem engine_particles_again (elapsed : R) (w : World) :
  engine_particles elapsed (fst (engine_particles elapsed w))
  = (fst (engine_particles elapsed w), []).
Proof.
  induction w as [|e w IH]; [reflexivity|].
  cbn [engine_particles].
  pose proof (emit_engine_particles_again elapsed e) as He.
  destruct (emit_engine_particles elapsed e) as [e' s].
  destruct (engine_particles elapsed w) as [w' s'].
  cbn [fst engine_particles] in *. rewrite He, IH. reflexivity.
Qed.

(** ** The overlays *)

Lemma u8_of_float_range (r : R) (n : Z) :
  0 <= r <= IZR n -> (0 <= u8_of_float r <= n)%Z.
Proof.
  intros [H0 H1]. destruct (u8_of_float_floor r H0) as [Hlo Hhi].
  split.
  - assert (H : (-1 < u8_of_float r)%Z) by (apply lt_IZR; lra). lia.
  - apply le_IZR. lra.
Qed.

Lemma u8_of_float_mono (a b : R) :
  0 <= a <= b -> (u8_of_float a <= u8_of_float b)%Z.
Proof.
  intros [H0 H1].
  destruct (u8_of_float_floor a H0) as [Ha _].
  destruct (u8_of_float_floor b) as [_ Hb]; [lra|].
  assert (H : (u8_of_float a < u8_of_float b + 1)%Z).
  { apply lt_IZR. rewrite plus_IZR. lra. }
  lia.
Qed.

Lemma callsign_label_text (text : string) (p : vec3) :
  Forall callsign_text (callsign_label text p)
  /\ (List.length (callsign_label text p) <= 1)%nat.
Proof.
  unfold callsign_label.
  destruct (Rltb (z3 p) 0) eqn:E0; [split; [constructor|cbn; lia]|].
  destruct (Rgtb (z3 p) 10000) eqn:E1; [split; [constructor|cbn; lia]|].
  apply Rltb_false in E0. apply Rgtb_false in E1.
  split; [|cbn; lia]. constructor; [|constructor].
  cbn [callsign_text size red green blue alpha].
  split; [reflexivity|]. split; [lra|].
  split; [reflexivity|]. split; [reflexivity|]. split; [reflexivity|].
  apply u8_of_float_range. lra.
Qed.

(** X16.  The callsign pass draws at most one label per entity of the world,
    and nothing else; every label has a rectangle of no size, a text size
    between 0 and 20, and is white with an alpha between 0 and 128, so that
    the conversion of the alpha to 8 bits never leaves its range. *)
Theorem draw_callsigns_labels (f : Frame) (g : GuiViewport3D) (w : World) :
  Forall callsign_text (draw_callsigns f g w)
  /\ (List.length (draw_callsigns f g w) <= List.length w)%nat.
Proof.
  unfold draw_callsigns.
  assert (H : forall e, Forall callsign_text (draw_callsign f g e)
                        /\ (List.length (draw_callsign f g e) <= 1)%nat).
  { intro e. unfold draw_callsign.
    destruct (call_sign e), (transform e); try (split; [constructor|cbn; lia]).
    destruct (is_entity e (my_spaceship f)); [split; [constructor|cbn; lia]|].
    apply callsign_label_text. }
  induction w as [|e w [IH1 IH2]]; [split; [constructor|cbn; lia]|].
  cbn [flat_map List.length]. destruct (H e) as [He1 He2]. split.
  - apply Forall_app. split; assumption.
  - rewrite length_app. lia.
Qed.

(** X17.  The fade of a callsign is monotone: of two labels that are drawn,
    the one projected deeper is drawn no larger and no more opaque. *)
Theorem callsign_fade_monotone (text1 text2 : string) (p1 p2 : vec3) :
  0 <= z3 p1 -> z3 p1 <= z3 p2 -> z3 p2 <= 10000 ->
  exists r1 s1 c1 r2 s2 c2,
    callsign_label text1 p1 = [DrawText r1 text1 s1 c1]
    /\ callsign_label text2 p2 = [DrawText r2 text2 s2 c2]
    /\ s2 <= s1 /\ (alpha c2 <= alpha c1)%Z.
Proof.
  intros H0 H1 H2. unfold callsign_label.
  replace (Rltb (z3 p1) 0) with false by (symmetry; apply Rltb_false; lra).
  replace (Rltb (z3 p2) 0) with false by (symmetry; apply Rltb_false; lra).
  replace (Rgtb (z3 p1) 10000) with false by (symmetry; apply Rgtb_false; lra).
  replace (Rgtb (z3 p2) 10000) with false by (symmetry; apply Rgtb_false; lra).
  do 6 eexists. split; [reflexivity|]. split; [reflexivity|].
  cbn [alpha]. split; [lra|]. apply u8_of_float_mono. lra.
Qed.

(** X18.  The ship of the player gets no callsign: the pass draws on the world
    what it draws on the world without that ship. *)
Theorem draw_callsigns_others (f : Frame) (g : GuiViewport3D) (w : World) :
  draw_callsigns f g w = draw_callsigns f g (others f w).
Proof.
  unfold draw_callsigns, others.
  induction w as [|e w IH]; [reflexivity|].
  cbn [flat_map filter].
  destruct (is_entity e (my_spaceship f)) eqn:E; cbn [negb].
  - rewrite <- IH. unfold draw_callsign. rewrite E.
    destruct (call_sign e), (transform e); reflexivity.
  - cbn [flat_map]. rewrite IH. reflexivity.
Qed.

Lemma heading_angles_spec (angle : Z) :
  In angle heading_angles <-> (0 <= angle < 360 /\ angle mod 30 = 0)%Z.
Proof.
  unfold heading_angles. rewrite in_map_iff. split.
  - intros (k & <- & Hk). apply in_seq in Hk. split; [lia|].
    rewrite Z.mul_comm. apply Z_mod_mult.
  - intros [Hr Hm]. exists (Z.to_nat (angle / 30)). split.
    + rewrite Z2Nat.id by (apply Z.div_pos; lia).
      pose proof (Z_div_mod_eq_full angle 30). lia.
    + apply in_seq. split; [lia|].
      assert (angle / 30 < 12)%Z by (apply Z.div_lt_upper_bound; lia).
      assert (0 <= angle / 30)%Z by (apply Z.div_pos; lia). lia.
Qed.

(** X19.  The heading pass draws at most twelve labels and nothing else.  Every
    label names a multiple of 30 from 0 to 330, is drawn at the projection of
    the point of that heading around the ship, which is before the camera, with
    text size 30 and alpha 128 whatever its depth.  When [vec2FromAngle] yields
    vectors of length 1, that point is at 2500 from the ship. *)
Theorem draw_headings_labels (f : Frame) (g : GuiViewport3D) (w : World) :
  (List.length (draw_headings f g w) <= 12)%nat
  /\ Forall (fun e =>
       exists ship t angle,
         find_entity w (my_spaceship f) = Some ship /\ transform ship = Some t
         /\ (0 <= angle < 360 /\ angle mod 30 = 0)%Z
         /\ let at_ := heading_point t angle in
            let p := fst (worldToScreen (renderer f) (mkvec3 (x2 at_) (y2 at_) 0) g) in
            0 < z3 p
            /\ e = DrawText (mkRect (mkvec2 (x3 p) (y3 p)) (mkvec2 0 0))
                     (string_of_angle angle) 30 (mku8vec4 255 255 255 128)
            /\ ((forall a, x2 (vec2FromAngle a) * x2 (vec2FromAngle a)
                           + y2 (vec2FromAngle a) * y2 (vec2FromAngle a) = 1) ->
                (x2 at_ - x2 (getPosition t)) * (x2 at_ - x2 (getPosition t))
                + (y2 at_ - y2 (getPosition t)) * (y2 at_ - y2 (getPosition t))
                = 2500 * 2500))
       (draw_headings f g w).
Proof.
  unfold draw_headings.
  destruct (find_entity w (my_spaceship f)) as [ship|] eqn:Es;
    [|split; [cbn; lia|constructor]].
  destruct (transform ship) as [t|] eqn:Et; [|split; [cbn; lia|constructor]].
  split.
  - change 12%nat with (List.length heading_angles).
    induction heading_angles as [|a l IH]; [cbn; lia|].
    cbn [flat_map List.length]. rewrite length_app.
    assert (List.length (draw_heading f g t a) <= 1)%nat; [|lia].
    unfold draw_heading. destruct (Rgtb _ 0); cbn; lia.
  - apply Forall_forall. intros e Hin.
    apply in_flat_map in Hin. destruct Hin as (angle & Ha & He).
    exists ship, t, angle. split; [reflexivity|]. split; [exact Et|].
    split; [apply heading_angles_spec, Ha|]. cbv zeta.
    unfold draw_heading in He. fold (heading_point t angle) in He.
    destruct (Rgtb _ 0) eqn:E; [|destruct He].
    destruct He as [<-|[]]. apply Rgtb_true in E.
    split; [exact E|]. split; [reflexivity|].
    intros Hunit. specialize (Hunit (IZR angle - 90)).
    unfold heading_point. destruct (vec2FromAngle (IZR angle - 90)) as [vx vy].
    destruct (getPosition t) as [px py].
    cbv [add2 scale2 x2 y2] in *. nra.
Qed.

(** X20.  The reticle is drawn when, and only when, the ship of the player has
    a target that resolves to an entity.  Its model matrix is then the
    translation to the position of the target on the ground, and the fourth
    component of its colour is 2.5 times the radius of the target, 300 for a
    target without physics. *)
Theorem draw_target_reticle (f : Frame) (w : World) :
  match getComponent target w (my_spaceship f) with
  | Some target_comp =>
      match find_entity w (target_entity target_comp) with
      | Some e =>
          exists M,
            In (GlUniformMatrix4fv "model" M) (draw_target f w)
            /\ (forall p, mulmv M (vec4_of p 1) = vec4_of (add3 p (target_offset e)) 1)
            /\ In (GlUniform4f "color" (5 / 10) (5 / 10) (5 / 10) (radius_of e * (25 / 10)))
                 (draw_target f w)
            /\ In (GlDrawElements 6) (draw_target f w)
      | None => draw_target f w = []
      end
  | None => draw_target f w = []
  end.
Proof.
  unfold draw_target.
  destruct (getComponent target w (my_spaceship f)) as [tc|]; [|reflexivity].
  destruct (find_entity w (target_entity tc)) as [e|]; [|reflexivity].
  eexists. split; [cbn [In]; do 3 right; left; reflexivity|]. split.
  - intros [px py pz]. unfold target_offset.
    destruct (transform e) as [t|].
    + cbv [translate identity mulmv vec4_of add4 scale4 add3 col0 col1 col2 col3
           x3 y3 z3 x4 y4 z4 w4].
      apply vec4_eq; ring.
    + cbv [identity mulmv vec4_of add4 scale4 add3 col0 col1 col2 col3
           x3 y3 z3 x4 y4 z4 w4].
      apply vec4_eq; ring.
  - split.
    + cbn [In]. do 4 right. left. reflexivity.
    + cbn [In]. do 7 right. left. reflexivity.
Qed.

(** ** The frame as a whole *)

(** The calls of a frame: the scene, the overlays, the reset of the
    viewport. *)
Lemma onDraw_events (f : Frame) (m : Machine) :
  x2 (size (rect (self m))) <> 0 ->
  snd (onDraw f m) = through_scene f m ++ overlays f m ++ [end_frame f].
Proof.
  intros Hw. unfold onDraw, through_scene, through_starbox, overlays.
  apply Reqb_false in Hw. rewrite Hw.
  destruct (draw_starbox f _ (world m) (skybox_textures m)) as [cache starbox].
  pose proof (engine_particles_valid (elapsed_time f) (world m) (my_spaceship f)) as Hvalid.
  destruct (engine_particles (elapsed_time f) (world m)) as [w particles].
  cbn [fst snd] in *.
  destruct (camera_matrices_fields (main_screen_camera_fov f) (self m))
    as (_ & _ & _ & _ & -> & -> & ->).
  rewrite Hvalid.
  destruct (show_spacedust (self m) && is_valid (world m) (my_spaceship f)).
  - destruct (draw_spacedust f _ w (space_dust m) (spacedust_positions m) (rng m))
      as [[[dust buffer] r] spacedust].
    cbn [snd]. rewrite <- !app_assoc. reflexivity.
  - cbn [snd]. rewrite <- !app_assoc. reflexivity.
Qed.

Lemma filter_none {A : Type} (p : A -> bool) (l : list A) :
  Forall (fun a => p a = false) l -> filter p l = [].
Proof.
  induction 1 as [|a l Ha _ IH]; [reflexivity|]. cbn [filter]. rewrite Ha. exact IH.
Qed.

Lemma filter_all {A : Type} (p : A -> bool) (l : list A) :
  Forall (fun a => p a = true) l -> filter p l = l.
Proof.
  induction 1 as [|a l Ha _ IH]; [reflexivity|]. cbn [filter]. rewrite Ha, IH. reflexivity.
Qed.

Lemma Forall_flat_map {A B : Type} (P : B -> Prop) (f : A -> list B) (l : list A) :
  (forall a, Forall P (f a)) -> Forall P (flat_map f l).
Proof.
  intros H. induction l as [|a l IH]; [constructor|].
  cbn [flat_map]. apply Forall_app. split; [apply H|exact IH].
Qed.

Lemma through_starbox_no_text (f : Frame) (m : Machine) :
  Forall (fun e => is_text e = false) (through_starbox f m).
Proof.
  unfold through_starbox, begin_frame, draw_starbox.
  destruct (select_skybox f _ (world m)) as [n [l k]]. unfold cubemap.
  destruct (getComponent transform (world m) (my_spaceship f));
    destruct (GLAD_GL_ES_VERSION_2_0 f);
    (destruct (existsb (String.eqb n) (skybox_textures m));
     [destruct (existsb (String.eqb l) (skybox_textures m))
     |destruct (existsb (String.eqb l) (n :: skybox_textures m))]);
    cbn [snd app]; repeat constructor.
Qed.

Lemma engine_particles_no_text (elapsed : R) (w : World) :
  Forall (fun e => is_text e = false) (snd (engine_particles elapsed w)).
Proof.
  rewrite engine_particles_spawned. apply Forall_flat_map. intro e.
  rewrite emits_spec. destruct (emits elapsed e); cbn [snd]; [|constructor].
  destruct (engine_emitter e) as [ee|], (transform e) as [t|],
    (impulse_engine e) as [i|]; try constructor.
  induction (emitters ee) as [|ed l IH]; constructor; [reflexivity|exact IH].
Qed.

Lemma draw_spacedust_no_text (f : Frame) (g : GuiViewport3D) (w : World)
    (dust buffer : list vec3) (r : Rng) :
  Forall (fun e => is_text e = false) (snd (draw_spacedust f g w dust buffer r)).
Proof.
  unfold draw_spacedust.
  destruct (update_space_dust (dust_center_of f g w) dust false r) as [[dust' u] r'].
  destruct u; cbn [snd app]; repeat constructor.
Qed.

Lemma draw_target_no_text (f : Frame) (w : World) :
  Forall (fun e => is_text e = false) (draw_target f w).
Proof.
  unfold draw_target.
  destruct (getComponent target w (my_spaceship f)) as [tc|]; [|constructor].
  destruct (find_entity w (target_entity tc)); repeat constructor.
Qed.

Lemma through_scene_no_text (f : Frame) (m : Machine) :
  Forall (fun e => is_text e = false) (through_scene f m).
Proof.
  unfold through_scene.
  apply Forall_app; split; [apply through_starbox_no_text|].
  apply Forall_app; split; [apply engine_particles_no_text|].
  apply Forall_app; split; [repeat constructor|].
  apply Forall_app; split.
  - destruct (show_spacedust (self m) && is_valid (world m) (my_spaceship f));
      [apply draw_spacedust_no_text|constructor].
  - apply Forall_app; split; [apply draw_target_no_text|repeat constructor].
Qed.

Lemma overlays_all_text (f : Frame) (m : Machine) :
  Forall (fun e => is_text e = true) (overlays f m).
Proof.
  unfold overlays. apply Forall_app. split.
  - destruct (show_callsigns (self m)); [|constructor].
    apply Forall_flat_map. intro e. unfold draw_callsign.
    destruct (call_sign e), (transform e); try constructor.
    destruct (is_entity e (my_spaceship f)); [constructor|].
    eapply Forall_impl; [|apply callsign_label_text].
    intros [] H; try contradiction. reflexivity.
  - destruct (show_headings (self m)); [|constructor].
    unfold draw_headings.
    destruct (find_entity _ (my_spaceship f)) as [ship|]; [|constructor].
    destruct (transform ship) as [t|]; [|constructor].
    apply Forall_flat_map. intro a. unfold draw_heading.
    destruct (Rgtb _ 0); repeat constructor.
Qed.

(** X21.  The texts a frame draws are the callsigns, then the headings, after
    everything else of the frame: no other pass draws text, and with both
    switches off the frame draws none. *)
Theorem onDraw_texts (f : Frame) (m : Machine) :
  x2 (size (rect (self m))) <> 0 ->
  filter is_text (snd (onDraw f m)) = overlays f m
  /\ (exists scene, snd (onDraw f m) = scene ++ overlays f m ++ [end_frame f]
                    /\ filter is_text scene = [])
  /\ (show_callsigns (self m) = false -> show_headings (self m) = false ->
      filter is_text (snd (onDraw f m)) = []).
Proof.
  intros Hw.
  assert (E : filter is_text (snd (onDraw f m)) = overlays f m).
  { rewrite (onDraw_events f m Hw), !filter_app.
    rewrite (filter_none _ _ (through_scene_no_text f m)).
    rewrite (filter_all _ _ (overlays_all_text f m)).
    cbn [filter is_text end_frame app]. apply app_nil_r. }
  split; [exact E|]. split.
  - exists (through_scene f m). split; [apply onDraw_events, Hw|].
    apply filter_none, through_scene_no_text.
  - intros Hc Hh. rewrite E. unfold overlays. rewrite Hc, Hh. reflexivity.
Qed.

(** X22.  A frame that does not draw the dust, the switch being off or the
    player having no ship, leaves the particles, the buffer of the GPU and
    the random number generator as they were, and uploads nothing. *)
Theorem onDraw_without_dust (f : Frame) (m : Machine) :
  show_spacedust (self m) && is_valid (world m) (my_spaceship f) = false ->
  let m' := fst (onDraw f m) in
  space_dust m' = space_dust m
  /\ spacedust_positions m' = spacedust_positions m
  /\ rng m' = rng m
  /\ uploads (snd (onDraw f m)) = [].
Proof.
  intros Hoff. cbv zeta.
  destruct (Req_dec_T (x2 (size (rect (self m)))) 0) as [Hz|Hnz].
  - unfold onDraw. apply Reqb_true in Hz. rewrite Hz. repeat split.
  - pose proof (onDraw_dust f m Hnz) as H. cbv zeta in H. rewrite Hoff in H.
    injection H as H1 H2 H3. repeat (split; [assumption|]).
    rewrite (onDraw_events f m Hnz). unfold through_scene, through_starbox, overlays.
    rewrite Hoff, !uploads_app, begin_frame_events, draw_starbox_events,
      engine_particles_events, draw_target_events.
    assert (Hc : forall g w, uploads (if show_callsigns (self m)
                                      then draw_callsigns f g w else []) = []).
    { intros g w. destruct (show_callsigns _); [apply draw_callsigns_events|reflexivity]. }
    assert (Hh : forall g w, uploads (if show_headings (self m)
                                      then draw_headings f g w else []) = []).
    { intros g w. destruct (show_headings _); [apply draw_headings_events|reflexivity]. }
    rewrite Hc, Hh. reflexivity.
Qed.

(** ** The state of OpenGL through a frame *)

Lemma gl_run_app (c : Event -> GlState -> GlState) (s : GlState) (a b : list Event) :
  gl_run c s (a ++ b) = gl_run c (gl_run c s a) b.
Proof. apply fold_left_app. Qed.

Lemma draw_starbox_draw (f : Frame) (g : GuiViewport3D) (w : World) (cache : list string) :
  exists loaded,
    Forall (fun e => exists name, e = CubemapLoad name) loaded
    /\ snd (draw_starbox f g w cache)
       = ([ShaderBind "shaders/starbox"; GlUniform1f "scale" 100] ++ loaded
          ++ [GlUniform1i "global_starbox" 0; GlActiveTexture 0;
              CubemapBind (fst (select_skybox f g w));
              GlUniform1i "local_starbox" 1; GlActiveTexture 1;
              CubemapBind (fst (snd (select_skybox f g w)));
              GlUniform1f "starbox_lerp" (snd (snd (select_skybox f g w)));
              GlUniformMatrix4fv "projection" (projection_matrix g);
              GlUniformMatrix4fv "view" (view_matrix g);
              GlBindBuffer GL_ARRAY_BUFFER starbox_vertex_buffer;
              GlBindBuffer GL_ELEMENT_ARRAY_BUFFER starbox_element_buffer;
              GlVertexAttribPointer "position" 3])
         ++ GlDrawElements 36
            :: [GlBindBuffer GL_ARRAY_BUFFER GL_NONE;
                GlBindBuffer GL_ELEMENT_ARRAY_BUFFER GL_NONE;
                GlActiveTexture 1; CubemapUnbind;
                GlActiveTexture 0; CubemapUnbind].
Proof.
  unfold draw_starbox.
  destruct (select_skybox f g w) as [n [l k]]. cbn [fst snd].
  unfold cubemap.
  destruct (existsb (String.eqb n) cache);
    [destruct (existsb (String.eqb l) cache)
    |destruct (existsb (String.eqb l) (n :: cache))]; cbn [snd].
  - exists []. split; [constructor|reflexivity].
  - exists [CubemapLoad l]. split; [repeat constructor; eexists; reflexivity|reflexivity].
  - exists [CubemapLoad n]. split; [repeat constructor; eexists; reflexivity|reflexivity].
  - exists [CubemapLoad n; CubemapLoad l].
    split; [repeat constructor; eexists; reflexivity|reflexivity].
Qed.


(** X24.  Whatever the collaborators do to the state of OpenGL and whatever it
    was before the frame, the overlays are drawn with the depth test and the
    culling off, the blending and the depth mask on, and the frame ends with
    the viewport on the whole window. *)
Theorem overlays_state (collaborator : Event -> GlState -> GlState)
    (s0 : GlState) (f : Frame) (m : Machine) :
  x2 (size (rect (self m))) <> 0 ->
  (exists scene,
     snd (onDraw f m) = scene ++ overlays f m ++ [end_frame f]
     /\ let s := gl_run collaborator s0 scene in
        depth_test s = false /\ cull_face s = false
        /\ blend s = true /\ depth_mask s = true)
  /\ viewport (gl_run collaborator s0 (snd (onDraw f m)))
     = (0, 0, x2 (physical_size (renderer f)), y2 (physical_size (renderer f))).
Proof.
  intros Hw. rewrite (onDraw_events f m Hw). split.
  - exists (through_scene f m). split; [reflexivity|]. cbv zeta.
    unfold through_scene. rewrite !app_assoc. rewrite gl_run_app.
    match goal with |- context [gl_run collaborator (gl_run collaborator s0 ?pre) _] =>
      generalize (gl_run collaborator s0 pre) end.
    intros s. destruct s. cbv. repeat split.
  - rewrite !app_assoc, gl_run_app.
    match goal with |- context [gl_run collaborator (gl_run collaborator s0 ?pre) _] =>
      generalize (gl_run collaborator s0 pre) end.
    intros s. destruct s. reflexivity.
Qed.

Lemma gl_run_keeps_mask (collaborator : Event -> GlState -> GlState) (events : list Event) :
  (forall e s, depth_mask (collaborator e s) = depth_mask s) ->
  Forall (fun e => sets_depth_mask e = false) events ->
  forall s, depth_mask (gl_run collaborator s events) = depth_mask s.
Proof.
  intros Hc H. induction H as [|e l He _ IH]; intros s; [reflexivity|].
  unfold gl_run in *. cbn [fold_left]. rewrite IH.
  destruct e; try discriminate He; try apply Hc; try reflexivity.
  - destruct c; reflexivity.
  - destruct c; reflexivity.
  - unfold gl_step, set_cubemap.
    destruct (active_texture s) as [|[|n]]; reflexivity.
  - destruct t; reflexivity.
Qed.

(** X25.  When the collaborators leave the depth mask alone, the cube of the
    starbox is drawn with the depth mask off, whatever the state of OpenGL was
    before the frame: the background writes no depth. *)
Theorem starbox_writes_no_depth (collaborator : Event -> GlState -> GlState)
    (s0 : GlState) (f : Frame) (m : Machine) :
  (forall e s, depth_mask (collaborator e s) = depth_mask s) ->
  exists before after,
    through_starbox f m = before ++ GlDrawElements 36 :: after
    /\ depth_mask (gl_run collaborator s0 before) = false
    /\ Forall (fun e => e <> GlDrawElements 36) before.
Proof.
  intros Hc. unfold through_starbox.
  destruct (draw_starbox_draw f (camera_matrices (main_screen_camera_fov f) (self m))
              (world m) (skybox_textures m)) as (loaded & Hl & ->).
  match goal with
  | |- context [?b ++ ?mf ++ (?x ++ ?d :: ?t) ++ ?mt] =>
      exists ((b ++ mf) ++ x), (t ++ mt)
  end.
  split; [rewrite <- !app_assoc; reflexivity|]. split.
  - rewrite gl_run_app, gl_run_keeps_mask; [|exact Hc|].
    + rewrite gl_run_app.
      generalize (gl_run collaborator s0
                    (begin_frame f (self m) (world m))).
      intros s. reflexivity.
    + repeat (apply Forall_app; split); try (repeat constructor).
      eapply Forall_impl; [|exact Hl]. intros e [name ->]. reflexivity.
  - unfold begin_frame.
    repeat (apply Forall_app; split); try (repeat constructor; discriminate).
    + destruct (getComponent transform (world m) (my_spaceship f));
        destruct (GLAD_GL_ES_VERSION_2_0 f); repeat constructor; discriminate.
    + eapply Forall_impl; [|exact Hl]. intros e [name ->]. discriminate.
Qed.

End Viewport.

(** * The properties at work on the example world *)

Lemma rng_const_fair : fair (rng_const (9 / 10)).
Proof. intro n. cbv [rng_const draws]. lra. Defined.

(** The first pass over the dust of the example machine. *)
Lemma update_space_dust_visited_witness :
  let c := mkvec3 0 0 0 in
  let g := rng_const (9 / 10) in
  fair g
  /\ exists n,
       dust_pass (in_cube c) c g (pairs [c; c])
         (pairs (fst (fst (update_space_dust c [c; c] false g)))) n.
Proof.
  cbv zeta. split; [exact rng_const_fair|].
  apply (update_space_dust_visited (mkvec3 0 0 0)
           [mkvec3 0 0 0; mkvec3 0 0 0] false (rng_const (9 / 10))).
  exact rng_const_fair.
Defined.

Lemma example_width : x2 (size (rect (self (example_machine example_widget)))) <> 0.
Proof. cbv [example_machine example_widget self rect size x2]. lra. Defined.

Lemma hidden_width : x2 (size (rect (self (example_machine hidden_widget)))) = 0.
Proof. reflexivity. Defined.

(** The frame of the example machine uploads its dust. *)
Lemma onDraw_uploads_witness :
  let f := example_frame in
  let m := example_machine example_widget in
  x2 (size (rect (self m))) <> 0
  /\ show_spacedust (self m) = true
  /\ is_valid (world m) (my_spaceship f) = true
  /\ let c := dust_center_of f (self m) (world m) in
     let '(m', events) := onDraw box_inside box_edge_distance turn heading pixels f m in
     exists n,
       dust_pass anywhere c (rng m) (pairs (space_dust m)) (pairs (space_dust m')) n
       /\ uploads events = (if Nat.eqb n 0 then [] else [space_dust m'])
       /\ spacedust_positions m'
          = (if Nat.eqb n 0 then spacedust_positions m else space_dust m')
       /\ (n = 0%nat -> space_dust m' = space_dust m).
Proof.
  cbv zeta. split; [exact example_width|]. split; [reflexivity|]. split; [reflexivity|].
  apply (onDraw_uploads box_inside box_edge_distance turn heading pixels
           example_frame (example_machine example_widget));
    [exact example_width|reflexivity|reflexivity].
Defined.

(** The zone of the nebula passes the test of the code at the example camera. *)
Lemma nebula_contains :
  zone_passes box_inside (camera_position example_widget) zone_nebula example_transform
  = true.
Proof.
  cbv [zone_passes box_inside zone_nebula outline example_box example_transform
       getPosition example_widget camera_position sub2 x2 y2 x3 y3].
  rewrite !(proj2 (Rleb_true _ _)) by lra. reflexivity.
Defined.

(** Of the two zones with a skybox over the example camera, the first of the
    query is taken. *)
Lemma local_skybox_first_match_witness :
  let q := fun h z => (zone_entity h z, z, example_transform) in
  query_zones example_world = [q 2%nat zone_plain] ++ q 3%nat zone_nebula :: [q 4%nat zone_void]
  /\ Forall (passed_over box_inside (camera_position example_widget)) [q 2%nat zone_plain]
  /\ is_empty (skybox zone_nebula) = false
  /\ zone_passes box_inside (camera_position example_widget) zone_nebula example_transform
     = true
  /\ fst (snd (select_skybox box_inside box_edge_distance example_frame
                 example_widget example_world))
     = "skybox/nebula"%string.
Proof.
  cbv zeta.
  assert (Hq : query_zones example_world
               = [(zone_entity 2 zone_plain, zone_plain, example_transform)]
                 ++ (zone_entity 3 zone_nebula, zone_nebula, example_transform)
                    :: [(zone_entity 4 zone_void, zone_void, example_transform)])
    by reflexivity.
  assert (Hb : Forall (passed_over box_inside (camera_position example_widget))
                 [(zone_entity 2 zone_plain, zone_plain, example_transform)]).
  { constructor; [left; reflexivity|constructor]. }
  split; [exact Hq|]. split; [exact Hb|]. split; [reflexivity|].
  split; [exact nebula_contains|].
  exact (proj1 (local_skybox_first_match box_inside box_edge_distance
                  example_frame example_widget example_world _ _ _ _ _
                  Hq Hb eq_refl nebula_contains)).
Defined.

(** The factor of the nebula, which fades over 500 units. *)
Lemma skybox_blend_factor_witness :
  let q := fun h z => (zone_entity h z, z, example_transform) in
  let camera := camera_position example_widget in
  query_zones example_world = [q 2%nat zone_plain] ++ q 3%nat zone_nebula :: [q 4%nat zone_void]
  /\ Forall (passed_over box_inside camera) [q 2%nat zone_plain]
  /\ is_empty (skybox zone_nebula) = false
  /\ zone_passes box_inside camera zone_nebula example_transform = true
  /\ 0 < skybox_fade_distance zone_nebula
  /\ snd (snd (select_skybox box_inside box_edge_distance example_frame
                 example_widget example_world))
     = clamp (zone_edge_distance box_edge_distance camera zone_nebula example_transform
              / skybox_fade_distance zone_nebula) 0 1.
Proof.
  cbv zeta.
  assert (Hq : query_zones example_world
               = [(zone_entity 2 zone_plain, zone_plain, example_transform)]
                 ++ (zone_entity 3 zone_nebula, zone_nebula, example_transform)
                    :: [(zone_entity 4 zone_void, zone_void, example_transform)])
    by reflexivity.
  assert (Hb : Forall (passed_over box_inside (camera_position example_widget))
                 [(zone_entity 2 zone_plain, zone_plain, example_transform)]).
  { constructor; [left; reflexivity|constructor]. }
  assert (HD : 0 < skybox_fade_distance zone_nebula).
  { cbv [zone_nebula skybox_fade_distance]. lra. }
  split; [exact Hq|]. split; [exact Hb|]. split; [reflexivity|].
  split; [exact nebula_contains|]. split; [exact HD|].
  exact (proj1 (proj1 (proj1 (skybox_blend_factor box_inside box_edge_distance
                                example_frame example_widget example_world)
                         _ _ _ _ _ Hq Hb eq_refl nebula_contains) HD)).
Defined.

(** Comparisons and minima of explicit numbers. *)
Ltac compare_reals :=
  repeat match goal with
  | |- context [Rleb ?a ?b] =>
      first [rewrite (proj2 (Rleb_true a b)) by lra
            |rewrite (proj2 (Rleb_false a b)) by lra]
  | |- context [Rltb ?a ?b] =>
      first [rewrite (proj2 (Rltb_true a b)) by lra
            |rewrite (proj2 (Rltb_false a b)) by lra]
  | |- context [Rmin ?a ?b] =>
      first [rewrite (Rmin_left a b) by lra
            |rewrite (Rmin_right a b) by lra]
  end.

(** The lopsided zone and three cameras on its west-east axis: 500 east of the
    zone (outside the outline, which reaches 200), 500 west of it and 100 west
    of it (both inside).  The test of the code, on the reflected offset, passes
    at the first and the third and fails at the second. *)
Lemma lopsided_query :
  query_zones lopsided_world
  = [(zone_entity 3 zone_lopsided, zone_lopsided, example_transform)] ++ [].
Proof. reflexivity. Qed.

Lemma lopsided_east :
  zone_holds_camera box_inside (mkvec3 500 0 0) zone_lopsided example_transform = false
  /\ zone_passes box_inside (mkvec3 500 0 0) zone_lopsided example_transform = true.
Proof.
  cbv [zone_holds_camera zone_passes box_inside zone_lopsided lopsided_box outline
       example_transform getPosition sub2 x2 y2 x3 y3].
  compare_reals. split; reflexivity.
Qed.

Lemma lopsided_west :
  zone_holds_camera box_inside (mkvec3 (- 500) 0 0) zone_lopsided example_transform = true
  /\ zone_passes box_inside (mkvec3 (- 500) 0 0) zone_lopsided example_transform = false.
Proof.
  cbv [zone_holds_camera zone_passes box_inside zone_lopsided lopsided_box outline
       example_transform getPosition sub2 x2 y2 x3 y3].
  compare_reals. split; reflexivity.
Qed.

Lemma lopsided_near :
  zone_holds_camera box_inside (mkvec3 (- 100) 0 0) zone_lopsided example_transform = true
  /\ zone_passes box_inside (mkvec3 (- 100) 0 0) zone_lopsided example_transform = true.
Proof.
  cbv [zone_holds_camera zone_passes box_inside zone_lopsided lopsided_box outline
       example_transform getPosition sub2 x2 y2 x3 y3].
  compare_reals. split; reflexivity.
Qed.

(** C3.  The code does not take the first zone whose outline contains the
    ground position of the camera: line 199 subtracts the camera from the
    position of the zone, not the position of the zone from the camera, and
    tests the outline at that reflected point.  In a world whose one zone, at
    the origin, has the skybox "nebula" and an outline that reaches 1000 to the
    west and 200 to the east: with the camera 500 to the east, outside the
    outline, the code takes the skybox of the zone; with the camera 500 to the
    west, inside the outline, the code passes the zone over and keeps the
    global skybox. *)
Lemma local_skybox_reflected :
  let east := mkvec3 500 0 0 in
  let west := mkvec3 (- 500) 0 0 in
  is_empty (skybox zone_lopsided) = false
  /\ zone_holds_camera box_inside east zone_lopsided example_transform = false
  /\ fst (snd (select_skybox box_inside box_edge_distance example_frame
                 (widget_at east) lopsided_world))
     = "skybox/nebula"%string
  /\ zone_holds_camera box_inside west zone_lopsided example_transform = true
  /\ fst (snd (select_skybox box_inside box_edge_distance example_frame
                 (widget_at west) lopsided_world))
     = "skybox/default"%string.
Proof.
  cbv zeta. split; [reflexivity|].
  split; [exact (proj1 lopsided_east)|].
  split; [|split; [exact (proj1 lopsided_west)|]].
  - unfold select_skybox. rewrite lopsided_query.
    cbv [widget_at camera_position app].
    rewrite select_local_skybox_match;
      [reflexivity|reflexivity|exact (proj2 lopsided_east)].
  - unfold select_skybox. rewrite lopsided_query.
    cbv [widget_at camera_position].
    rewrite select_local_skybox_passes; [reflexivity|].
    constructor; [right; exact (proj2 lopsided_west)|constructor].
Qed.

(** C4.  The factor of the code is not that of the distance of the camera to
    the boundary of the zone that contains it: the distance of line 205 is
    taken at the reflected point of line 199.  With the lopsided zone, which
    fades over 500 units: a camera 100 to the west of the zone is inside the
    outline, 300 from its boundary, and the claim gives 300 / 500; the code
    gives 100 / 500.  A camera 500 to the east is inside no zone, and the claim
    gives the global skybox and the factor 0; the code gives the skybox of the
    zone and the factor 1. *)
Lemma skybox_blend_reflected :
  let near := mkvec3 (- 100) 0 0 in
  let east := mkvec3 500 0 0 in
  zone_holds_camera box_inside near zone_lopsided example_transform = true
  /\ 0 < skybox_fade_distance zone_lopsided
  /\ clamp (camera_edge_distance box_edge_distance near zone_lopsided example_transform
            / skybox_fade_distance zone_lopsided) 0 1 = 3 / 5
  /\ snd (snd (select_skybox box_inside box_edge_distance example_frame
                 (widget_at near) lopsided_world)) = 1 / 5
  /\ Forall (fun q => zone_holds_camera box_inside east (snd (fst q)) (snd q) = false)
       (query_zones lopsided_world)
  /\ fst (snd (select_skybox box_inside box_edge_distance example_frame
                 (widget_at east) lopsided_world))
     <> fst (select_skybox box_inside box_edge_distance example_frame
               (widget_at east) lopsided_world)
  /\ snd (snd (select_skybox box_inside box_edge_distance example_frame
                 (widget_at east) lopsided_world)) = 1.
Proof.
  cbv zeta.
  assert (Hcode : forall camera,
            zone_passes box_inside camera zone_lopsided example_transform = true ->
            snd (select_skybox box_inside box_edge_distance example_frame
                   (widget_at camera) lopsided_world)
            = ("skybox/nebula"%string,
               clamp (zone_edge_distance box_edge_distance camera zone_lopsided
                        example_transform / 500) 0 1)).
  { intros camera Hpass. unfold select_skybox. rewrite lopsided_query.
    cbv [widget_at camera_position app snd].
    rewrite select_local_skybox_match; [|reflexivity|exact Hpass].
    cbv [zone_lopsided skybox_fade_distance skybox].
    rewrite (proj2 (Rleb_false 500 0)) by lra. reflexivity. }
  split; [exact (proj1 lopsided_near)|].
  split; [cbv [zone_lopsided skybox_fade_distance]; lra|].
  split; [|split; [|split; [|split]]].
  - cbv [camera_edge_distance box_edge_distance zone_lopsided lopsided_box outline
         skybox_fade_distance example_transform getPosition sub2 x2 y2 x3 y3 clamp].
    compare_reals. lra.
  - rewrite (Hcode _ (proj2 lopsided_near)).
    cbv [snd zone_edge_distance box_edge_distance zone_lopsided lopsided_box outline
         example_transform getPosition sub2 x2 y2 x3 y3 clamp].
    compare_reals. lra.
  - rewrite lopsided_query. constructor; [exact (proj1 lopsided_east)|constructor].
  - rewrite (Hcode _ (proj2 lopsided_east)). discriminate.
  - rewrite (Hcode _ (proj2 lopsided_east)).
    cbv [snd zone_edge_distance box_edge_distance zone_lopsided lopsided_box outline
         example_transform getPosition sub2 x2 y2 x3 y3 clamp].
    compare_reals. lra.
Qed.

(** The engine of the example ship, one second in: it emits. *)
Lemma engine_particle_emission_witness :
  engine_emitter example_ship = Some example_engine
  /\ transform example_ship = Some example_transform
  /\ impulse_engine example_ship = Some (mkImpulseEngine 1)
  /\ actual (mkImpulseEngine 1) <> 0
  /\ 1 - last_engine_particle_time example_engine > 1 / 10
  /\ let '(e', spawned) := emit_engine_particles turn 1 example_ship in
     Forall2 (fun ed event =>
                exists p, event = ParticleSpawn p p (emitter_color ed) (emitter_color ed)
                                    (emitter_scale ed * Rabs (actual (mkImpulseEngine 1))) 0 5)
       (emitters example_engine) spawned
     /\ engine_emitter e' = Some (mkEngineEmitter 1 (emitters example_engine)).
Proof.
  assert (Hnz : actual (mkImpulseEngine 1) <> 0) by (cbv [actual]; lra).
  assert (Hgt : 1 - last_engine_particle_time example_engine > 1 / 10)
    by (cbv [example_engine last_engine_particle_time]; lra).
  split; [reflexivity|]. split; [reflexivity|]. split; [reflexivity|].
  split; [exact Hnz|]. split; [exact Hgt|].
  exact (proj1 (proj1 (proj2 (engine_particle_emission turn 1 example_ship
                                example_engine example_transform (mkImpulseEngine 1)
                                eq_refl eq_refl eq_refl)) Hnz) Hgt).
Defined.

(** The callsign of the example contact is projected from 300 units above
    it. *)
Lemma callsign_projected_above_witness :
  call_sign example_contact = Some (mkCallSign "CV1")
  /\ transform example_contact = Some example_contact_transform
  /\ is_entity example_contact (my_spaceship example_frame) = false
  /\ exists world,
       draw_callsign example_frame example_widget example_contact
       = callsign_label "CV1" (fst (worldToScreen (renderer example_frame) world example_widget))
       /\ x3 world = 100 /\ y3 world = 0 /\ z3 world = 300.
Proof.
  split; [reflexivity|]. split; [reflexivity|]. split; [reflexivity|].
  exact (callsign_projected_above example_frame example_widget example_contact
           (mkCallSign "CV1") example_contact_transform eq_refl eq_refl eq_refl).
Defined.

(** The callsign of the example contact, at depth 100, is drawn faded. *)
Lemma callsign_fade_witness :
  let g := camera_matrices 60 (example_camera 0 0) in
  let p := fst (worldToScreen (renderer example_frame)
                  (callsign_anchor example_contact example_contact_transform) g) in
  let fade := 1 - z3 p / 10000 in
  call_sign example_contact = Some (mkCallSign "CV1")
  /\ transform example_contact = Some example_contact_transform
  /\ is_entity example_contact (my_spaceship example_frame) = false
  /\ 0 <= z3 p <= 10000
  /\ draw_callsign example_frame g example_contact
     = [DrawText (mkRect (mkvec2 (x3 p) (y3 p)) (mkvec2 0 0)) "CV1"
          (20 * fade) (mku8vec4 255 255 255 (u8_of_float (128 * fade)))].
Proof.
  cbv zeta.
  assert (Hd : 0 <= z3 (fst (worldToScreen (renderer example_frame)
                               (callsign_anchor example_contact example_contact_transform)
                               (camera_matrices 60 (example_camera 0 0)))) <= 10000)
    by (rewrite example_contact_depth; lra).
  split; [reflexivity|]. split; [reflexivity|]. split; [reflexivity|].
  split; [exact Hd|].
  exact (proj1 (proj2 (callsign_fade example_frame (camera_matrices 60 (example_camera 0 0))
                         example_contact (mkCallSign "CV1") example_contact_transform
                         eq_refl eq_refl eq_refl) Hd)).
Defined.

(** A widget of no width skips the frame; the example widget runs it to its
    end. *)
Lemma onDraw_zero_width_witness :
  (x2 (size (rect (self (example_machine hidden_widget)))) = 0
   /\ onDraw box_inside box_edge_distance turn heading pixels example_frame
        (example_machine hidden_widget)
      = (example_machine hidden_widget, []))
  /\ (x2 (size (rect (self (example_machine example_widget)))) <> 0
      /\ exists body,
           snd (onDraw box_inside box_edge_distance turn heading pixels example_frame
                  (example_machine example_widget))
           = RendererFinish :: body ++ [end_frame example_frame]).
Proof.
  split; split.
  - exact hidden_width.
  - exact (proj1 (onDraw_zero_width box_inside box_edge_distance turn heading pixels
                    example_frame (example_machine hidden_widget)) hidden_width).
  - exact example_width.
  - exact (proj2 (onDraw_zero_width box_inside box_edge_distance turn heading pixels
                    example_frame (example_machine example_widget)) example_width).
Defined.

(** * The further properties at work on the example world *)

Lemma example_depth : depth_of (example_camera 0 0) (mkvec3 1000 0 0) <> 0.
Proof.
  unfold depth_of. rewrite example_camera_forward.
  cbv [example_camera camera_position sub3 dot3 x3 y3 z3]. lra.
Defined.

(** The point 1000 ahead of the example camera, and the point 2000 ahead. *)
Lemma projection_along_ray_witness :
  let g := example_camera 0 0 in
  let r := mkRenderTarget (mkvec2 800 600) in
  let world := mkvec3 1000 0 0 in
  2 <> 0 /\ depth_of g world <> 0
  /\ let camera := camera_matrices 60 g in
     let p := project r camera world in
     let p' := project r camera (along_ray g 2 world) in
     x3 p' = x3 p /\ y3 p' = y3 p /\ z3 p' = 2 * z3 p.
Proof.
  cbv zeta. assert (H2 : 2 <> 0) by lra.
  split; [exact H2|]. split; [exact example_depth|].
  exact (projection_along_ray (mkRenderTarget (mkvec2 800 600)) 60 (example_camera 0 0)
           2 (mkvec3 1000 0 0) H2 example_depth).
Defined.

(** The point 5 behind the example camera, on its axis, at a field of view of
    60 degrees. *)
Lemma projection_of_axis_witness :
  let g := example_camera 0 0 in
  let r := mkRenderTarget (mkvec2 800 600) in
  0 < 60 < 180
  /\ x2 (size (rect g)) <> 0 /\ y2 (size (rect g)) <> 0
  /\ - 5 <> 0
  /\ 0 < tan (radians 60 / 2)
  /\ project r (camera_matrices 60 g)
       (add3 (camera_position g) (scale3 (- 5) (camera_forward g)))
     = mkvec3 (x2 (position (rect g)) + x2 (size (rect g)) / 2)
              (y2 (position (rect g)) + y2 (size (rect g)) / 2)
              (- 5).
Proof.
  cbv zeta.
  assert (Hfov : 0 < 60 < 180) by lra.
  assert (Hw : x2 (size (rect (example_camera 0 0))) <> 0)
    by (cbv [example_camera rect size x2]; lra).
  assert (Hh : y2 (size (rect (example_camera 0 0))) <> 0)
    by (cbv [example_camera rect size y2]; lra).
  assert (H : - 5 <> 0) by lra.
  split; [exact Hfov|]. split; [exact Hw|]. split; [exact Hh|]. split; [exact H|].
  exact (projection_of_axis (mkRenderTarget (mkvec2 800 600)) 60 (example_camera 0 0)
           (- 5) Hfov Hw Hh H).
Defined.

Lemma example_width_positive :
  0 < x2 (size (rect example_widget)) /\ 0 < y2 (size (rect example_widget)).
Proof. cbv [example_widget rect size x2 y2]. split; lra. Defined.

(** The rectangle of the example widget. *)
Lemma worldToScreen_in_viewport_witness :
  let g := example_widget in
  let r := mkRenderTarget (mkvec2 800 600) in
  let world := mkvec3 1000 0 0 in
  0 < x2 (size (rect g)) /\ 0 < y2 (size (rect g))
  /\ (ndc_y g world = 1 ->
      y3 (fst (worldToScreen r world g)) = y2 (position (rect g))).
Proof.
  cbv zeta.
  split; [exact (proj1 example_width_positive)|].
  split; [exact (proj2 example_width_positive)|].
  exact (proj1 (proj2 (proj2 (worldToScreen_in_viewport (mkRenderTarget (mkvec2 800 600))
                                example_widget (mkvec3 1000 0 0)
                                (proj1 example_width_positive)
                                (proj2 example_width_positive))))).
Defined.

(** The matrices after the frame of the example machine. *)
Lemma onDraw_matrices_witness :
  let m := example_machine example_widget in
  x2 (size (rect (self m))) <> 0
  /\ self (fst (onDraw box_inside box_edge_distance turn heading pixels example_frame m))
     = camera_matrices (main_screen_camera_fov example_frame) (self m).
Proof.
  cbv zeta. split; [exact example_width|].
  exact (proj1 (onDraw_matrices box_inside box_edge_distance turn heading pixels
                  example_frame (example_machine example_widget) identity identity
                  example_width)).
Defined.

(** The signs of a single pair. *)
Lemma fill_signs_alternate_witness :
  List.length [0; 0] = (2 * 1)%nat /\ (0 < 1)%nat
  /\ List.length (fill_signs [0; 0]) = List.length [0; 0]
  /\ nth (2 * 0) (fill_signs [0; 0]) 0 = - 1
  /\ nth (2 * 0 + 1) (fill_signs [0; 0]) 0 = 1.
Proof.
  split; [reflexivity|]. split; [exact (le_n 1)|].
  exact (fill_signs_alternate 1 [0; 0] 0 eq_refl (le_n 1)).
Defined.

(** Two labels, at depths 100 and 200. *)
Lemma callsign_fade_monotone_witness :
  let p1 := mkvec3 0 0 100 in
  let p2 := mkvec3 0 0 200 in
  0 <= z3 p1 /\ z3 p1 <= z3 p2 /\ z3 p2 <= 10000
  /\ exists r1 s1 c1 r2 s2 c2,
       callsign_label "A" p1 = [DrawText r1 "A" s1 c1]
       /\ callsign_label "B" p2 = [DrawText r2 "B" s2 c2]
       /\ s2 <= s1 /\ (alpha c2 <= alpha c1)%Z.
Proof.
  cbv zeta.
  assert (H0 : 0 <= z3 (mkvec3 0 0 100)) by (cbv [z3]; lra).
  assert (H1 : z3 (mkvec3 0 0 100) <= z3 (mkvec3 0 0 200)) by (cbv [z3]; lra).
  assert (H2 : z3 (mkvec3 0 0 200) <= 10000) by (cbv [z3]; lra).
  split; [exact H0|]. split; [exact H1|]. split; [exact H2|].
  exact (callsign_fade_monotone "A" "B" (mkvec3 0 0 100) (mkvec3 0 0 200) H0 H1 H2).
Defined.

(** The texts of the frame of the example machine. *)
Lemma onDraw_texts_witness :
  let m := example_machine example_widget in
  x2 (size (rect (self m))) <> 0
  /\ filter is_text
       (snd (onDraw box_inside box_edge_distance turn heading pixels example_frame m))
     = overlays turn heading example_frame m.
Proof.
  cbv zeta. split; [exact example_width|].
  exact (proj1 (onDraw_texts box_inside box_edge_distance turn heading pixels
                  example_frame (example_machine example_widget) example_width)).
Defined.

(** The example machine with the dust switched off. *)
Lemma onDraw_without_dust_witness :
  let m := example_machine (example_camera 0 0) in
  show_spacedust (self m) && is_valid (world m) (my_spaceship example_frame) = false
  /\ space_dust
       (fst (onDraw box_inside box_edge_distance turn heading pixels example_frame m))
     = space_dust m.
Proof.
  cbv zeta. split; [reflexivity|].
  exact (proj1 (onDraw_without_dust box_inside box_edge_distance turn heading pixels
                  example_frame (example_machine (example_camera 0 0)) eq_refl)).
Defined.

(** A state of OpenGL with everything the wrong way round, and collaborators
    that leave the state alone. *)
Lemma overlays_state_witness :
  let m := example_machine example_widget in
  let s0 := mkGlState true true false false 7 (Some "a"%string) (Some "b"%string)
              spacedust_buffer starbox_element_buffer (1, 2, 3, 4) in
  x2 (size (rect (self m))) <> 0
  /\ viewport (gl_run (fun _ s => s) s0
                 (snd (onDraw box_inside box_edge_distance turn heading pixels
                         example_frame m)))
     = (0, 0, x2 (physical_size (renderer example_frame)),
        y2 (physical_size (renderer example_frame))).
Proof.
  cbv zeta. split; [exact example_width|].
  exact (proj2 (overlays_state box_inside box_edge_distance turn heading pixels
                  (fun _ s => s) _ example_frame (example_machine example_widget)
                  example_width)).
Defined.

Lemma starbox_writes_no_depth_witness :
  let m := example_machine example_widget in
  let s0 := mkGlState true true false true 7 (Some "a"%string) (Some "b"%string)
              spacedust_buffer starbox_element_buffer (1, 2, 3, 4) in
  let idle := fun (_ : Event) (s : GlState) => s in
  (forall e s, depth_mask (idle e s) = depth_mask s)
  /\ exists before after,
       through_starbox box_inside box_edge_distance pixels example_frame m
       = before ++ GlDrawElements 36 :: after
       /\ depth_mask (gl_run idle s0 before) = false
       /\ Forall (fun e => e <> GlDrawElements 36) before.
Proof.
  cbv zeta. split; [intros e s; reflexivity|].
  exact (starbox_writes_no_depth box_inside box_edge_distance pixels
           (fun _ s => s) _ example_frame (example_machine example_widget)
           (fun e s => eq_refl)).
Defined.

(** The example widget, constructed in a process with one pair of dust that
    no frame has touched yet, and one frame of it. *)
Lemma dust_buffer_in_step_witness :
  let m := example_machine (example_camera 0 0) in
  let steps := [(example_widget, example_world, example_frame)] in
  space_dust_initial 1 m
  /\ dust_invariant 1
       (run box_inside box_edge_distance turn heading pixels steps
          (GuiViewport3D_constructor 1 example_widget m)).
Proof.
  cbv zeta. split; [reflexivity|].
  exact (dust_buffer_in_step box_inside box_edge_distance turn heading pixels 1
           [(example_widget, example_world, example_frame)] example_widget
           (example_machine (example_camera 0 0)) eq_refl).
Defined.
